(** * Pencit: the image pipeline of [ImageProcessingApp] (src/Pencit.py)

    A shallow embedding of the pipeline part of the Tk application: the
    two image attributes, the two Tk variables, and every button callback
    that reads or writes them.  Widgets that only show things (canvases,
    status bar, notebook tabs, message boxes) are not part of the state;
    what a callback does to them is the list of events it emits.

    Layout: Python floats ([Float64]), arrays ([np]), the OpenCV calls the
    callbacks make ([cv2]), the callbacks themselves, then the theorems. *)

From Stdlib Require Import String ZArith List Bool Lia.
From Stdlib Require Import Floats.SpecFloat.
Import ListNotations.
Open Scope Z_scope.

(* ================================================================== *)
(** ** Python floats: IEEE 754 binary64 *)
(* ================================================================== *)

(** A Python float. *)
Definition float : Type := spec_float.

Module Float64.

Definition prec : Z := 53.
Definition emax : Z := 1024.

(** [float(z)] for a Python int, rounded to nearest; [a / b] on two
    ints below [2^53] is [div (of_Z a) (of_Z b)]. *)
Definition of_Z (z : Z) : float := binary_normalize prec emax z 0 false.

Definition div (x y : float) : float := SFdiv prec emax x y.
Definition mul (x y : float) : float := SFmul prec emax x y.

Definition leb (x y : float) : bool := SFleb x y.
Definition ltb (x y : float) : bool := SFltb x y.

Definition is_nan (x : float) : bool :=
  match x with S754_nan => true | _ => false end.

(** [int(x)]: rounding toward zero; Python raises on nan and on the
    infinities, which is [None] here. *)
Definition trunc (x : float) : option Z :=
  match x with
  | S754_zero _ => Some 0
  | S754_finite s m e =>
      let a := match e with
               | Zneg p => Z.shiftr (Zpos m) (Zpos p)
               | _ => Z.shiftl (Zpos m) e
               end in
      Some (if s then - a else a)
  | _ => None
  end.

(** The builtin [min(a, b, c)]: the first argument is kept until a later
    one compares strictly smaller. *)
Definition min3 (a b c : float) : float :=
  let m := if ltb b a then b else a in
  if ltb c m then c else m.

End Float64.

(** A [numpy.float32], the type of the bins of [cv2.calcHist]. *)
Definition float32 : Type := spec_float.

Module Float32.

Definition prec : Z := 24.
Definition emax : Z := 128.

(** The conversion of an integer, rounded to nearest. *)
Definition of_Z (z : Z) : float32 := binary_normalize prec emax z 0 false.

(** The value of a bin that holds an integer. *)
Definition to_Z (x : float32) : option Z := Float64.trunc x.

End Float32.

(* ================================================================== *)
(** ** Arrays of 8-bit samples *)
(* ================================================================== *)

(** One pixel of a 3-channel array, in the channel order of the array. *)
Definition pixel : Type := Z * Z * Z.

(** A decoded image is either [h x w] (two dimensions) or [h x w x 3]. *)
Inductive ndarray : Type :=
| Gray (rows : list (list Z))
| Color (rows : list (list pixel)).

Module np.

(** [len(a.shape)] *)
Definition ndim (a : ndarray) : Z :=
  match a with Gray _ => 2 | Color _ => 3 end.

(** [a.shape[:2]] as [(h, w)]; the width is that of the first row. *)
Definition shape2 (a : ndarray) : Z * Z :=
  match a with
  | Gray rows => (Z.of_nat (length rows), Z.of_nat (length (hd [] rows)))
  | Color rows => (Z.of_nat (length rows), Z.of_nat (length (hd [] rows)))
  end.

(** [a.copy()]: a fresh array with the same contents. *)
Definition copy (a : ndarray) : ndarray := a.

Definition map_pixel (f : Z -> Z) (p : pixel) : pixel :=
  let '(c0, c1, c2) := p in (f c0, f c1, f c2).

(** An elementwise operation on every sample of every channel. *)
Definition map_samples (f : Z -> Z) (a : ndarray) : ndarray :=
  match a with
  | Gray rows => Gray (map (map f) rows)
  | Color rows => Color (map (map (map_pixel f)) rows)
  end.

(** All samples of the array, row by row, channel by channel. *)
Definition samples (a : ndarray) : list Z :=
  match a with
  | Gray rows => concat rows
  | Color rows =>
      concat (map (fun row =>
                     concat (map (fun p : pixel =>
                                    let '(c0, c1, c2) := p in [c0; c1; c2]) row))
                  rows)
  end.

Definition is_uint8 (x : Z) : Prop := 0 <= x <= 255.

(** Every sample fits the [uint8] dtype. *)
Definition all_uint8 (a : ndarray) : Prop := Forall is_uint8 (samples a).

(** [np.maximum] and [np.minimum] on float64: a nan operand wins. *)
Definition maximum (x y : float) : float :=
  if Float64.is_nan x then x
  else if Float64.is_nan y then y
  else if Float64.ltb x y then y else x.

Definition minimum (x y : float) : float :=
  if Float64.is_nan x then x
  else if Float64.is_nan y then y
  else if Float64.ltb y x then y else x.

(** [np.clip(x, lo, hi)] *)
Definition clip (x lo hi : float) : float := minimum (maximum x lo) hi.

(** [.astype(np.uint8)] on a float64: the fraction is dropped and the
    integer wraps to eight bits. *)
Definition astype_uint8 (x : float) : Z :=
  match Float64.trunc x with
  | Some z => z mod 256
  | None => 0
  end.

(** One sample of [np.clip(a / value, 0, 255).astype(np.uint8)]. *)
Definition divide_sample (value : float) (x : Z) : Z :=
  astype_uint8
    (clip (Float64.div (Float64.of_Z x) value)
          (Float64.of_Z 0) (Float64.of_Z 255)).

End np.

(* ================================================================== *)
(** ** The OpenCV calls made by the callbacks *)
(* ================================================================== *)

Inductive exn : Type :=
| cv2_error     (** raised by an OpenCV assertion *)
| ValueError.   (** raised by [float(...)] *)

Module cv2.

(** What a file holds once decoded, before [imread] fixes the channel
    count: one channel, or three in OpenCV's B, G, R order. *)
Inductive stored : Type :=
| StoredGray (rows : list (list Z))
| StoredColor (rows : list (list pixel)).

(** [cv2.imread(path)] with its default flag [IMREAD_COLOR]: the result
    always has three channels (a one-channel file is replicated), and an
    unreadable file gives [None] without raising. *)
Definition imread (file : option stored) : option ndarray :=
  match file with
  | None => None
  | Some (StoredGray rows) => Some (Color (map (map (fun g => (g, g, g))) rows))
  | Some (StoredColor rows) => Some (Color rows)
  end.

(** Exchange of the first and third channel. *)
Definition swap_rb (p : pixel) : pixel :=
  let '(c0, c1, c2) := p in (c2, c1, c0).

(** [cv2.cvtColor(src, cv2.COLOR_BGR2RGB)]; [src] may be Python's [None],
    and both that and a two-dimensional array fail the channel check. *)
Definition cvtColor_BGR2RGB (src : option ndarray) : exn + ndarray :=
  match src with
  | Some (Color rows) => inr (Color (map (map swap_rb) rows))
  | _ => inl cv2_error
  end.

(** [cv2.cvtColor(src, cv2.COLOR_RGB2BGR)] *)
Definition cvtColor_RGB2BGR (src : ndarray) : exn + ndarray :=
  match src with
  | Color rows => inr (Color (map (map swap_rb) rows))
  | Gray _ => inl cv2_error
  end.

(** The 8-bit luminance of OpenCV: 15-bit fixed point weights, rounded. *)
Definition rgb2gray (p : pixel) : Z :=
  let '(r, g, b) := p in
  Z.shiftr (r * 9798 + g * 19235 + b * 3735 + 16384) 15.

(** [cv2.cvtColor(src, cv2.COLOR_RGB2GRAY)] *)
Definition cvtColor_RGB2GRAY (src : ndarray) : exn + ndarray :=
  match src with
  | Color rows => inr (Gray (map (map rgb2gray) rows))
  | Gray _ => inl cv2_error
  end.

(** [cv2.threshold(src, thresh, maxval, cv2.THRESH_BINARY)[1]]:
    [maxval] where the sample is greater than [thresh], else 0. *)
Definition threshold_binary (src : ndarray) (thresh maxval : Z) : ndarray :=
  np.map_samples (fun s => if s >? thresh then maxval else 0) src.

(** [cv2.bitwise_not(src)] on [uint8]: the complement, kept to 8 bits. *)
Definition bitwise_not (src : ndarray) : ndarray :=
  np.map_samples (fun s => Z.lnot s mod 256) src.

Inductive morph_shape : Type := MORPH_RECT | MORPH_CROSS.

(** [cv2.getStructuringElement(shape, (kw, kh))]: a [kh x kw] mask; the
    cross is the middle row and the middle column. *)
Definition getStructuringElement (shape : morph_shape) (ksize : Z * Z)
  : list (list Z) :=
  let '(kw, kh) := ksize in
  map (fun i =>
         map (fun j =>
                match shape with
                | MORPH_RECT => 1
                | MORPH_CROSS =>
                    if (Z.of_nat i =? kh / 2) || (Z.of_nat j =? kw / 2)
                    then 1 else 0
                end)
             (seq 0 (Z.to_nat kw)))
      (seq 0 (Z.to_nat kh)).

(** Positions paired with their elements, [enumerate(l)]. *)
Definition enumerate {A : Type} (l : list A) : list (Z * A) :=
  combine (map Z.of_nat (seq 0 (length l))) l.

(** The offsets, relative to the centre anchor, of the non-zero mask
    elements. *)
Definition kernel_offsets (kernel : list (list Z)) : list (Z * Z) :=
  let ay := Z.of_nat (length kernel) / 2 in
  let ax := Z.of_nat (length (hd [] kernel)) / 2 in
  concat
    (map (fun '(i, row) =>
            concat (map (fun '(j, v) =>
                           if v =? 0 then [] else [(i - ay, j - ax)])
                        (enumerate row)))
         (enumerate kernel)).

(** The sample at row [y], column [x], or [border] outside the plane. *)
Definition at_or (border : Z) (plane : list (list Z)) (y x : Z) : Z :=
  if (y <? 0) || (x <? 0) then border
  else match nth_error plane (Z.to_nat y) with
       | Some row =>
           match nth_error row (Z.to_nat x) with
           | Some v => v
           | None => border
           end
       | None => border
       end.

(** One output sample of an erosion: the minimum under the mask.  With
    the default border ([BORDER_CONSTANT], default border value) samples
    outside the image read as the largest value, 255. *)
Definition erode_sample (plane : list (list Z)) (offsets : list (Z * Z))
           (y x : Z) : Z :=
  fold_left Z.min
            (map (fun '(dy, dx) => at_or 255 plane (y + dy) (x + dx)) offsets)
            255.

Definition erode_plane (offsets : list (Z * Z)) (plane : list (list Z))
  : list (list Z) :=
  map (fun '(y, row) =>
         map (fun '(x, _) => erode_sample plane offsets y x) (enumerate row))
      (enumerate plane).

Definition channel (c : nat) (rows : list (list pixel)) : list (list Z) :=
  map (map (fun p : pixel =>
              let '(c0, c1, c2) := p in
              match c with O => c0 | S O => c1 | _ => c2 end)) rows.

Definition merge (p0 p1 p2 : list (list Z)) : list (list pixel) :=
  map (fun '(r0, (r1, r2)) =>
         map (fun '(a, (b, c)) => (a, b, c)) (combine r0 (combine r1 r2)))
      (combine p0 (combine p1 p2)).

(** One pass of the erosion; a 3-channel array is eroded per channel. *)
Definition erode1 (offsets : list (Z * Z)) (src : ndarray) : ndarray :=
  match src with
  | Gray plane => Gray (erode_plane offsets plane)
  | Color rows =>
      Color (merge (erode_plane offsets (channel 0 rows))
                   (erode_plane offsets (channel 1 rows))
                   (erode_plane offsets (channel 2 rows)))
  end.

(** [cv2.erode(src, kernel, iterations=n)] *)
Definition erode (src : ndarray) (kernel : list (list Z)) (iterations : nat)
  : ndarray :=
  Nat.iter iterations (erode1 (kernel_offsets kernel)) src.

(** How often each of the 256 levels occurs in channel [c]. *)
Definition count_levels (img : ndarray) (c : nat) : list Z :=
  let plane := match img with
               | Gray plane => plane
               | Color rows => channel c rows
               end in
  map (fun level =>
         Z.of_nat (length (filter (Z.eqb (Z.of_nat level)) (concat plane))))
      (seq 0 256).

(** [cv2.calcHist([img], [c], None, [256], [0, 256])]: for 8-bit input
    the occurrences are counted in integers and the histogram is handed
    back as [float32] bins, so a count is rounded to the nearest
    [float32]. *)
Definition calcHist (img : ndarray) (c : nat) : list float32 :=
  map Float32.of_Z (count_levels img c).

End cv2.

(* ================================================================== *)
(** ** The application object *)
(* ================================================================== *)

(** The text of the division entry, seen through [float(...)]: either it
    does not parse or it denotes [v].  The entry is created with
    [textvariable=self.division_var], so the entry text and the variable
    are one Tcl variable; [division_var.set(v)] leaves text denoting [v]. *)
Inductive entry_text : Type :=
| Garbage (text : string)
| Numeral (v : float).

(** The attributes of [ImageProcessingApp] that the pipeline uses. *)
Record App : Type := {
  original_image : option ndarray;
  processed_image : option ndarray;
  image_path : option string;
  threshold_var : Z;
  division_var : entry_text
}.

(** [setup_variables] *)
Definition setup_variables : App := {|
  original_image := None;
  processed_image := None;
  image_path := None;
  threshold_var := 128;
  division_var := Numeral (Float64.of_Z 2)
|}.

Inductive canvas : Type := original_canvas | processed_canvas.

(** What a callback does to the widgets and to the disk, in order. *)
Inductive event : Type :=
| showwarning (message : string)
| showerror (message : string)
| showinfo (message : string)
| status_set (text : string)
| display (image : ndarray) (c : canvas)
| info_config
| notebook_select (tab : Z)
| histogram_draw (curves : list (list float32))
| imwrite (file_path : string) (img : ndarray).

(** A callback is reported to the user as failed when a warning or an
    error box opens. *)
Definition is_report (e : event) : bool :=
  match e with
  | showwarning _ | showerror _ => true
  | _ => false
  end.

(** *** Methods as state transformers

    A method body runs on [self], may raise, and emits events; attribute
    assignments made before a raise stay made. *)
Definition M (A : Type) : Type := App -> (exn + A) * App * list event.

Definition ret {A : Type} (a : A) : M A := fun self => (inr a, self, []).

Definition bind {A B : Type} (m : M A) (k : A -> M B) : M B :=
  fun self =>
    match m self with
    | (inl e, self', ev) => (inl e, self', ev)
    | (inr a, self', ev) =>
        let '(r, self'', ev') := k a self' in (r, self'', ev ++ ev')
    end.

Definition raise {A : Type} (e : exn) : M A := fun self => (inl e, self, []).

(** The outcome of a call that may raise. *)
Definition lift {A : Type} (r : exn + A) : M A := fun self => (r, self, []).

(** [try: body  except <catches> as e: handler] *)
Definition try_except {A : Type} (body : M A) (catches : exn -> bool)
           (handler : exn -> M A) : M A :=
  fun self =>
    match body self with
    | (inl e, self', ev) =>
        if catches e
        then let '(r, self'', ev') := handler e self' in (r, self'', ev ++ ev')
        else (inl e, self', ev)
    | done => done
    end.

Definition get {A : Type} (attr : App -> A) : M A :=
  fun self => (inr (attr self), self, []).

Definition emit (e : event) : M unit := fun self => (inr tt, self, [e]).

Definition set_original_image (v : option ndarray) : M unit :=
  fun self =>
    (inr tt,
     {| original_image := v;
        processed_image := processed_image self;
        image_path := image_path self;
        threshold_var := threshold_var self;
        division_var := division_var self |}, []).

Definition set_processed_image (v : option ndarray) : M unit :=
  fun self =>
    (inr tt,
     {| original_image := original_image self;
        processed_image := v;
        image_path := image_path self;
        threshold_var := threshold_var self;
        division_var := division_var self |}, []).

Definition set_image_path (v : option string) : M unit :=
  fun self =>
    (inr tt,
     {| original_image := original_image self;
        processed_image := processed_image self;
        image_path := v;
        threshold_var := threshold_var self;
        division_var := division_var self |}, []).

Definition set_threshold_var (v : Z) : M unit :=
  fun self =>
    (inr tt,
     {| original_image := original_image self;
        processed_image := processed_image self;
        image_path := image_path self;
        threshold_var := v;
        division_var := division_var self |}, []).

Definition set_division_var (v : entry_text) : M unit :=
  fun self =>
    (inr tt,
     {| original_image := original_image self;
        processed_image := processed_image self;
        image_path := image_path self;
        threshold_var := threshold_var self;
        division_var := v |}, []).

Declare Scope method_scope.
Delimit Scope method_scope with method.
Notation "x <- m ;; k" := (bind m (fun x => k))
  (at level 61, m at next level, right associativity) : method_scope.
Notation "m ;; k" := (bind m (fun _ => k))
  (at level 61, right associativity) : method_scope.
Open Scope method_scope.

(** The three projections of a finished call. *)
Definition state_of {A : Type} (r : (exn + A) * App * list event) : App :=
  snd (fst r).
Definition events_of {A : Type} (r : (exn + A) * App * list event) : list event :=
  snd r.
Definition value_of {A : Type} (r : (exn + A) * App * list event) : exn + A :=
  fst (fst r).

(** The call told the user that it failed. *)
Definition reports_error {A : Type} (r : (exn + A) * App * list event) : bool :=
  existsb is_report (events_of r).

(** *** [display_image] *)

(** [scale = min((canvas_width-20)/w, (canvas_height-20)/h, 1.0)], the
    canvas being taken at least 300 by 200; [h] and [w] are the shape of
    a decoded image, so neither is zero. *)
Definition display_scale (winfo_width winfo_height : Z) (h w : Z) : float :=
  let canvas_width := Z.max winfo_width 300 in
  let canvas_height := Z.max winfo_height 200 in
  Float64.min3 (Float64.div (Float64.of_Z (canvas_width - 20)) (Float64.of_Z w))
               (Float64.div (Float64.of_Z (canvas_height - 20)) (Float64.of_Z h))
               (Float64.of_Z 1).

(** [new_w, new_h = max(int(w*scale), 1), max(int(h*scale), 1)] *)
Definition display_size (winfo_width winfo_height : Z) (h w : Z)
  : option (Z * Z) :=
  let scale := display_scale winfo_width winfo_height h w in
  match Float64.trunc (Float64.mul (Float64.of_Z w) scale),
        Float64.trunc (Float64.mul (Float64.of_Z h) scale) with
  | Some sw, Some sh => Some (Z.max sw 1, Z.max sh 1)
  | _, _ => None
  end.

(** The size at which [image] is drawn on a canvas that reports
    [winfo_width] by [winfo_height]: [h, w = image.shape[:2]]. *)
Definition resized_shape (winfo_width winfo_height : Z) (image : ndarray)
  : option (Z * Z) :=
  let '(h, w) := np.shape2 image in
  display_size winfo_width winfo_height h w.

(** [display_image(image, canvas)] as far as the session is concerned:
    nothing happens for [None], otherwise the image goes to the canvas. *)
Definition display_image (image : option ndarray) (c : canvas) : M unit :=
  match image with
  | None => ret tt
  | Some a => emit (display a c)
  end.

(* ================================================================== *)
(** ** The callbacks *)
(* ================================================================== *)

(** [check_image] *)
Definition check_image : M bool :=
  o <- get original_image ;;
  match o with
  | None => emit (showwarning "Please load an image first!") ;; ret false
  | Some _ => ret true
  end.

(** [self.original_image] handed to a call that needs an array: the
    call raises when the attribute is [None]. *)
Definition the_original : M ndarray :=
  o <- get original_image ;;
  match o with
  | Some a => ret a
  | None => raise cv2_error
  end.

(** [load_image]; [file_path] is what the file dialog returned (empty when
    it was cancelled) and [file] what the decoder finds at that path. *)
Definition load_image (file_path : string) (file : option cv2.stored) : M unit :=
  if String.eqb file_path EmptyString then ret tt
  else
    try_except
      (set_original_image (cv2.imread file) ;;
       src <- get original_image ;;
       rgb <- lift (cv2.cvtColor_BGR2RGB src) ;;
       set_original_image (Some rgb) ;;
       a <- the_original ;;
       set_processed_image (Some (np.copy a)) ;;
       set_image_path (Some file_path) ;;
       o <- get original_image ;;
       display_image o original_canvas ;;
       p <- get processed_image ;;
       display_image p processed_canvas ;;
       emit info_config ;;
       emit (status_set "Loaded") ;;
       emit (notebook_select 1))
      (fun _ => true)
      (fun _ => emit (showerror "Failed to load image")).

(** [convert_grayscale] *)
Definition convert_grayscale : M unit :=
  ok <- check_image ;;
  if negb ok then ret tt
  else
    a <- the_original ;;
    g <- lift (cv2.cvtColor_RGB2GRAY a) ;;
    set_processed_image (Some g) ;;
    p <- get processed_image ;;
    display_image p processed_canvas ;;
    emit (status_set "Converted to grayscale").

(** [convert_binary] *)
Definition convert_binary : M unit :=
  ok <- check_image ;;
  if negb ok then ret tt
  else
    a <- the_original ;;
    gray <- (if np.ndim a =? 3 then lift (cv2.cvtColor_RGB2GRAY a) else ret a) ;;
    t <- get threshold_var ;;
    set_processed_image (Some (cv2.threshold_binary gray t 255)) ;;
    p <- get processed_image ;;
    display_image p processed_canvas ;;
    emit (status_set "Binary conversion").

(** [logical_not] *)
Definition logical_not : M unit :=
  ok <- check_image ;;
  if negb ok then ret tt
  else
    a <- the_original ;;
    set_processed_image (Some (cv2.bitwise_not a)) ;;
    p <- get processed_image ;;
    display_image p processed_canvas ;;
    emit (status_set "Logical NOT operation completed").

(** [float(self.division_entry.get())] *)
Definition float_of_entry : M float :=
  t <- get division_var ;;
  match t with
  | Garbage _ => raise ValueError
  | Numeral v => ret v
  end.

(** [1.0 <= value <= 10.0] *)
Definition division_in_range (value : float) : bool :=
  Float64.leb (Float64.of_Z 1) value && Float64.leb value (Float64.of_Z 10).

(** The two background colours that the division entry is given:
    [colors['input_bg']] and ['#8b2635']. *)
Inductive entry_bg : Type := input_bg | invalid_bg.

(** [validate_division_input]: the colour it gives the entry and the
    value it returns. *)
Definition validate_division_input : M (entry_bg * bool) :=
  try_except
    (value <- float_of_entry ;;
     if division_in_range value
     then ret (input_bg, true)
     else ret (invalid_bg, false))
    (fun e => match e with ValueError => true | _ => false end)
    (fun _ => ret (invalid_bg, false)).

(** [apply_division] *)
Definition apply_division : M unit :=
  ok <- check_image ;;
  if negb ok then ret tt
  else
    try_except
      (value <- float_of_entry ;;
       if negb (division_in_range value)
       then emit (showerror "Please enter a value between 1.0 and 10.0")
       else
         set_division_var (Numeral value) ;;
         a <- the_original ;;
         set_processed_image (Some (np.map_samples (np.divide_sample value) a)) ;;
         p <- get processed_image ;;
         display_image p processed_canvas ;;
         emit (status_set "Division applied"))
      (fun e => match e with ValueError => true | _ => false end)
      (fun _ => emit (showerror "Please enter a valid number between 1.0 and 10.0")).

(** The curves that [show_histogram] plots for an image: one per channel
    of a 3-channel array, a single one otherwise. *)
Definition histogram_curves (img : ndarray) : list (list float32) :=
  if np.ndim img =? 3
  then map (cv2.calcHist img) [0%nat; 1%nat; 2%nat]
  else [cv2.calcHist img 0].

(** [show_histogram] *)
Definition show_histogram : M unit :=
  ok <- check_image ;;
  if negb ok then ret tt
  else
    try_except
      (p <- get processed_image ;;
       img_for_hist <- match p with
                       | Some p => ret p
                       | None => the_original
                       end ;;
       emit (histogram_draw (histogram_curves img_for_hist)) ;;
       emit (notebook_select 2) ;;
       emit (status_set "Histogram displayed"))
      (fun _ => true)
      (fun _ => emit (showerror "Failed to show histogram")).

(** [erosion_square] *)
Definition erosion_square : M unit :=
  ok <- check_image ;;
  if negb ok then ret tt
  else
    a <- the_original ;;
    binary <- (if np.ndim a =? 3
               then gray <- lift (cv2.cvtColor_RGB2GRAY a) ;;
                    ret (cv2.threshold_binary gray 127 255)
               else ret a) ;;
    let kernel := cv2.getStructuringElement cv2.MORPH_RECT (5, 5) in
    set_processed_image (Some (cv2.erode binary kernel 1)) ;;
    p <- get processed_image ;;
    display_image p processed_canvas ;;
    emit (status_set "Erosion with square SE applied").

(** [erosion_cross] *)
Definition erosion_cross : M unit :=
  ok <- check_image ;;
  if negb ok then ret tt
  else
    a <- the_original ;;
    binary <- (if np.ndim a =? 3
               then gray <- lift (cv2.cvtColor_RGB2GRAY a) ;;
                    ret (cv2.threshold_binary gray 127 255)
               else ret a) ;;
    let kernel := cv2.getStructuringElement cv2.MORPH_CROSS (5, 5) in
    set_processed_image (Some (cv2.erode binary kernel 1)) ;;
    p <- get processed_image ;;
    display_image p processed_canvas ;;
    emit (status_set "Erosion with cross SE applied").

(** [reset_image] *)
Definition reset_image : M unit :=
  ok <- check_image ;;
  if negb ok then ret tt
  else
    a <- the_original ;;
    set_processed_image (Some (np.copy a)) ;;
    p <- get processed_image ;;
    display_image p processed_canvas ;;
    set_division_var (Numeral (Float64.of_Z 2)) ;;
    set_threshold_var 128 ;;
    emit (status_set "Reset to original").

(** [save_image]; [file_path] is the answer of the save dialog and
    [write] what [cv2.imwrite] does with that path. *)
Definition save_image (file_path : string) (write : exn + bool) : M unit :=
  p <- get processed_image ;;
  match p with
  | None => emit (showwarning "No processed image to save!")
  | Some p =>
      if String.eqb file_path EmptyString then ret tt
      else
        try_except
          (img_save <- (if np.ndim p =? 3
                        then lift (cv2.cvtColor_RGB2BGR p)
                        else ret p) ;;
           _ <- lift write ;;
           emit (imwrite file_path img_save) ;;
           emit (status_set "Saved") ;;
           emit (showinfo "Image saved successfully!"))
          (fun _ => true)
          (fun _ => emit (showerror "Failed to save"))
  end.

(** The two convolutions are OpenCV's; nothing below depends on their
    numerics, only on their being functions of their arguments:
    [cv2.GaussianBlur(src, ksize, sigmaX)] and
    [cv2.filter2D(src, ddepth, kernel)]. *)
Class Convolutions : Type := {
  GaussianBlur : ndarray -> Z * Z -> Z -> ndarray;
  filter2D : ndarray -> Z -> list (list Z) -> ndarray
}.

Section Pipeline.

Context {conv : Convolutions}.

(** [gaussian_blur] *)
Definition gaussian_blur : M unit :=
  ok <- check_image ;;
  if negb ok then ret tt
  else
    a <- the_original ;;
    set_processed_image (Some (GaussianBlur a (15, 15) 0)) ;;
    p <- get processed_image ;;
    display_image p processed_canvas ;;
    emit (status_set "Gaussian blur applied").

(** [sharpen_image] *)
Definition sharpen_image : M unit :=
  ok <- check_image ;;
  if negb ok then ret tt
  else
    a <- the_original ;;
    let kernel := [[-1; -1; -1]; [-1; 9; -1]; [-1; -1; -1]] in
    set_processed_image (Some (filter2D a (-1) kernel)) ;;
    p <- get processed_image ;;
    display_image p processed_canvas ;;
    emit (status_set "Image sharpened").

(** The buttons of the BASIC OPERATIONS, ARITHMETIC DIVISION, HISTOGRAM,
    CONVOLUTION and MORPHOLOGY sections. *)
Inductive transform : Type :=
| Grayscale | BinaryThreshold | LogicalNot | Divide | Histogram
| Blur | Sharpen | ErosionSquare | ErosionCross.

Definition apply (t : transform) : M unit :=
  match t with
  | Grayscale => convert_grayscale
  | BinaryThreshold => convert_binary
  | LogicalNot => logical_not
  | Divide => apply_division
  | Histogram => show_histogram
  | Blur => gaussian_blur
  | Sharpen => sharpen_image
  | ErosionSquare => erosion_square
  | ErosionCross => erosion_cross
  end.

(** Everything the user can do to the session: the buttons, and typing
    into the division entry. *)
Inductive command : Type :=
| Load (file_path : string) (file : option cv2.stored)
| Save (file_path : string) (write : exn + bool)
| Reset
| Apply (t : transform)
| KeyRelease (text : entry_text).

Definition run (c : command) : M unit :=
  match c with
  | Load file_path file => load_image file_path file
  | Save file_path write => save_image file_path write
  | Reset => reset_image
  | Apply t => apply t
  | KeyRelease text => set_division_var text
  end.

(** The state after a command; an exception that escapes a callback is
    printed by Tk and the main loop goes on. *)
Definition after (c : command) (self : App) : App := state_of (run c self).

Definition after_all (cs : list command) (self : App) : App :=
  fold_left (fun s c => after c s) cs self.

(** The states the application can be in. *)
Inductive reachable : App -> Prop :=
| reachable_start : reachable setup_variables
| reachable_after c self : reachable self -> reachable (after c self).

End Pipeline.

(* ================================================================== *)
(** ** Vocabulary of the statements *)
(* ================================================================== *)

(** A sample of a thresholded or eroded image: background or foreground. *)
Definition is_binary (x : Z) : Prop := x = 0 \/ x = 255.

(** The same state with another processed buffer. *)
Definition with_processed (p : option ndarray) (self : App) : App :=
  {| original_image := original_image self;
     processed_image := p;
     image_path := image_path self;
     threshold_var := threshold_var self;
     division_var := division_var self |}.

(** Two states that differ in the processed buffer at most. *)
Definition same_inputs (s1 s2 : App) : Prop :=
  original_image s1 = original_image s2 /\
  image_path s1 = image_path s2 /\
  threshold_var s1 = threshold_var s2 /\
  division_var s1 = division_var s2.

(** The array that a readable file leaves in [self.original_image]:
    three channels, in R, G, B order. *)
Definition loaded (file : cv2.stored) : ndarray :=
  match file with
  | cv2.StoredGray rows => Color (map (map (fun g => (g, g, g))) rows)
  | cv2.StoredColor rows => Color (map (map cv2.swap_rb) rows)
  end.

(** The loaded buffer as the claim words it: the pixels of a colour
    file, which the decoder gives as (blue, green, red), in the order
    (red, green, blue); the level of a one-channel file three times. *)
Definition rgb_of_file (file : cv2.stored) : list (list pixel) :=
  match file with
  | cv2.StoredGray rows => map (map (fun g : Z => (g, g, g))) rows
  | cv2.StoredColor rows =>
      map (map (fun p : pixel =>
                  let '(blue, green, red) := p in (red, green, blue))) rows
  end.



(** The original buffer, when there is one, has three channels. *)
Definition original_in_color (self : App) : Prop :=
  forall a, original_image self = Some a -> exists rows, a = Color rows.





(** The scale factor as the specification words it, from the viewport
    itself. *)
Definition scale_as_specified (vw vh : Z) (h w : Z) : float :=
  Float64.min3 (Float64.div (Float64.of_Z vw) (Float64.of_Z w))
               (Float64.div (Float64.of_Z vh) (Float64.of_Z h))
               (Float64.of_Z 1).

(** The amount by which [shr_fexp] shifts a mantissa in binary64. *)
Definition shift_of (m e : Z) : Z :=
  Z.max 0 (fexp Float64.prec Float64.emax (Zdigits2 m + e) - e).

(** [x] is a float between 0 and the integer [w]. *)
Definition at_most (w : Z) (x : float) : Prop :=
  match x with
  | S754_zero _ => True
  | S754_finite false m e => e <= 0 /\ Zpos m <= w * 2 ^ (- e)
  | _ => False
  end.

(** [x] is a float that is not negative and not nan, with a mantissa of
    at most 53 bits. *)
Definition shaped (x : float) : Prop :=
  match x with
  | S754_zero s => s = false
  | S754_infinity s => s = false
  | S754_nan => False
  | S754_finite s m e => s = false /\ Zpos m < 2 ^ 53
  end.

(** The convolutions replaced by the identity, to run examples. *)
Definition no_convolution : Convolutions :=
  {| GaussianBlur := fun src _ _ => src;
     filter2D := fun src _ _ => src |}.

(** A one-pixel colour file and the session that has loaded it. *)
Definition one_pixel_file : cv2.stored := cv2.StoredColor [[(10, 20, 30)]].

Definition one_pixel_session : App :=
  state_of (load_image "a.png" (Some one_pixel_file) setup_variables).

(** *** Vocabulary of the further properties *)

(** The session with the original buffer cleared and all else kept. *)
Definition without_original (self : App) : App :=
  {| original_image := None;
     processed_image := processed_image self;
     image_path := image_path self;
     threshold_var := threshold_var self;
     division_var := division_var self |}.

(** The session right after [a] was loaded from [path], with the
    parameters at their defaults. *)
Definition fresh_session (a : ndarray) (path : option string) : App :=
  {| original_image := Some a;
     processed_image := Some (np.copy a);
     image_path := path;
     threshold_var := 128;
     division_var := Numeral (Float64.of_Z 2) |}.

(** What the application keeps true from start-up on. *)
Definition session_invariant (self : App) : Prop :=
  threshold_var self = 128 /\
  (original_image self <> None ->
   processed_image self <> None /\ image_path self <> None) /\
  original_in_color self.

(** What a file in a lossless format (PNG, the default of the save
    dialog) holds after [cv2.imwrite(path, img)]: the samples of [img],
    its channels taken as B, G, R. *)
Definition png_contents (img : ndarray) : cv2.stored :=
  match img with
  | Gray rows => cv2.StoredGray rows
  | Color rows => cv2.StoredColor rows
  end.

(** The array that [save_image] hands to [cv2.imwrite]. *)
Definition img_save_of (p : ndarray) : ndarray :=
  match p with
  | Color rows => Color (map (map cv2.swap_rb) rows)
  | Gray _ => p
  end.

(** A one-channel array seen as a 3-channel one. *)
Definition replicated (rows : list (list Z)) : ndarray :=
  Color (map (map (fun g => (g, g, g))) rows).





(** The binary plane that both erosions erode: the luminance of the
    original thresholded at 127. *)
Definition binarized (rows : list (list pixel)) : list (list Z) :=
  map (map (fun p => if cv2.rgb2gray p >? 127 then 255 else 0)) rows.

(** [p] has the shape of [q] and is nowhere above it. *)
Definition nowhere_above (p q : list (list Z)) : Prop :=
  Forall2 (Forall2 Z.le) p q.

(** [x] is a finite float between the integers [lo] and [hi], zero
    included when [lo] is, with an exponent of at most [top]. *)
Definition within (lo hi top : Z) (x : float) : Prop :=
  match x with
  | S754_zero _ => lo = 0
  | S754_finite false m e =>
      e <= top /\ lo * 2 ^ (- e) <= Zpos m <= hi * 2 ^ (- e)
  | _ => False
  end.


(** A value between the smallest and the largest channel of a pixel. *)
Definition between_channels (y : Z) (p : pixel) : Prop :=
  let '(r, g, b) := p in
  Z.min r (Z.min g b) <= y <= Z.max r (Z.max g b).

(* ================================================================== *)
(** ** Running method bodies *)
(* ================================================================== *)

Arguments cv2.erode : simpl never.
Arguments cv2.threshold_binary : simpl never.
Arguments cv2.bitwise_not : simpl never.
Arguments cv2.getStructuringElement : simpl never.
Arguments np.map_samples : simpl never.
Arguments np.copy : simpl never.
Arguments histogram_curves : simpl never.
Arguments Float64.of_Z : simpl never.
Arguments division_in_range : simpl never.

(** Unfolds the plumbing of [M] and of the callbacks, leaving the calls
    into [np] and [cv2] folded. *)
Ltac unfold_method :=
  cbv beta iota zeta delta
      [bind ret raise lift try_except get emit
       set_original_image set_processed_image set_image_path
       set_threshold_var set_division_var
       display_image check_image the_original float_of_entry
       load_image convert_grayscale convert_binary logical_not
       apply_division show_histogram erosion_square erosion_cross
       reset_image save_image gaussian_blur sharpen_image apply run after
       state_of events_of value_of reports_error
       fst snd negb].

(** Splits on everything a callback of [self] branches on, and runs it. *)
Ltac branches self :=
  let rows := fresh "rows" in
  let v := fresh "v" in
  let Eo := fresh "Eo" in
  let Ed := fresh "Ed" in
  let Er := fresh "Er" in
  let Ep := fresh "Ep" in
  destruct (original_image self) as [[rows | rows] |] eqn:Eo;
  (destruct (division_var self) as [? | v] eqn:Ed;
   [| destruct (division_in_range v) eqn:Er]);
  destruct (processed_image self) eqn:Ep;
  repeat (cbn; rewrite ?Eo, ?Ed, ?Er, ?Ep).

(* ================================================================== *)
(** ** Facts about the array operations *)
(* ================================================================== *)

Lemma Forall_samples_Gray (P : Z -> Prop) (rows : list (list Z)) :
  Forall P (np.samples (Gray rows)) <-> Forall (Forall P) rows.
Proof. apply Forall_concat. Qed.

Lemma Forall_pointwise_iff {A : Type} (P Q : A -> Prop) (l : list A) :
  (forall x, P x <-> Q x) -> (Forall P l <-> Forall Q l).
Proof.
  intros H; split; apply Forall_impl; intros x; apply H.
Qed.

Lemma Forall_pixel (P : Z -> Prop) (row : list pixel) :
  Forall (Forall P) (map (fun p : pixel => let '(c0, c1, c2) := p in [c0; c1; c2]) row)
  <-> Forall (fun p : pixel => let '(c0, c1, c2) := p in P c0 /\ P c1 /\ P c2) row.
Proof.
  rewrite Forall_map. apply Forall_pointwise_iff.
  intros [[c0 c1] c2]; split.
  - intros H. inversion_clear H as [| ? ? H0 H']. inversion_clear H' as [| ? ? H1 H''].
    inversion_clear H'' as [| ? ? H2 _]. auto.
  - intros (H0 & H1 & H2). repeat constructor; assumption.
Qed.

Lemma Forall_samples_Color (P : Z -> Prop) (rows : list (list pixel)) :
  Forall P (np.samples (Color rows))
  <-> Forall (Forall (fun p : pixel => let '(c0, c1, c2) := p in
                                       P c0 /\ P c1 /\ P c2)) rows.
Proof.
  simpl. rewrite Forall_concat, Forall_map.
  apply Forall_pointwise_iff. intros row.
  rewrite Forall_concat. apply Forall_pixel.
Qed.

(** An elementwise operation puts its own results in every sample. *)
Lemma Forall_map_samples (P : Z -> Prop) (f : Z -> Z) (a : ndarray) :
  (forall x, P (f x)) -> Forall P (np.samples (np.map_samples f a)).
Proof.
  intros Hf. destruct a as [rows | rows]; unfold np.map_samples.
  - apply Forall_samples_Gray. rewrite Forall_map.
    apply Forall_forall; intros row _.
    rewrite Forall_map. apply Forall_forall; intros x _. apply Hf.
  - apply Forall_samples_Color. rewrite Forall_map.
    apply Forall_forall; intros row _.
    rewrite Forall_map. apply Forall_forall; intros [[c0 c1] c2] _.
    simpl; auto.
Qed.

Lemma map_id_on {A : Type} (f : A -> A) (l : list A) :
  Forall (fun x => f x = x) l -> map f l = l.
Proof.
  induction 1 as [| x l Hx _ IH]; simpl; [reflexivity |].
  rewrite Hx, IH; reflexivity.
Qed.

(** An elementwise operation that fixes every sample fixes the array. *)
Lemma map_samples_id_on (f : Z -> Z) (a : ndarray) :
  Forall (fun x => f x = x) (np.samples a) -> np.map_samples f a = a.
Proof.
  destruct a as [rows | rows]; intros H; unfold np.map_samples; f_equal.
  - apply Forall_samples_Gray in H.
    apply map_id_on. revert H. apply Forall_impl. intros row. apply map_id_on.
  - apply Forall_samples_Color in H.
    apply map_id_on. revert H. apply Forall_impl. intros row Hrow.
    apply map_id_on. revert Hrow. apply Forall_impl.
    intros [[c0 c1] c2] (H0 & H1 & H2). simpl. rewrite H0, H1, H2. reflexivity.
Qed.

Lemma map_samples_compose (f g : Z -> Z) (a : ndarray) :
  np.map_samples f (np.map_samples g a) = np.map_samples (fun x => f (g x)) a.
Proof.
  destruct a as [rows | rows]; unfold np.map_samples; f_equal;
    rewrite map_map; apply map_ext; intros row;
    rewrite map_map; apply map_ext.
  - reflexivity.
  - intros [[c0 c1] c2]; reflexivity.
Qed.

(** The 8-bit complement is [255 - x], and undoes itself. *)
Lemma lnot_uint8 (x : Z) : np.is_uint8 x -> Z.lnot x mod 256 = 255 - x.
Proof.
  unfold np.is_uint8, Z.lnot. intros H.
  symmetry. apply Z.mod_unique with (q := -1); lia.
Qed.

Lemma lnot_uint8_involutive (x : Z) :
  np.is_uint8 x -> Z.lnot (Z.lnot x mod 256) mod 256 = x.
Proof.
  intros H. rewrite (lnot_uint8 x H).
  rewrite lnot_uint8 by (unfold np.is_uint8 in *; lia). lia.
Qed.

Lemma threshold_binary_is_binary (a : ndarray) (thresh : Z) :
  Forall is_binary (np.samples (cv2.threshold_binary a thresh 255)).
Proof.
  apply Forall_map_samples. intros x.
  destruct (x >? thresh); [right | left]; reflexivity.
Qed.

(** *** Erosion *)

Lemma at_or_binary (plane : list (list Z)) (y x : Z) :
  Forall (Forall is_binary) plane -> is_binary (cv2.at_or 255 plane y x).
Proof.
  intros H. unfold cv2.at_or.
  destruct ((y <? 0) || (x <? 0)); [right; reflexivity |].
  destruct (nth_error plane (Z.to_nat y)) as [row |] eqn:Hrow; [| right; reflexivity].
  destruct (nth_error row (Z.to_nat x)) as [v |] eqn:Hv; [| right; reflexivity].
  apply nth_error_In in Hrow, Hv.
  rewrite Forall_forall in H. specialize (H row Hrow).
  rewrite Forall_forall in H. exact (H v Hv).
Qed.

Lemma fold_min_binary (l : list Z) (start : Z) :
  is_binary start -> Forall is_binary l -> is_binary (fold_left Z.min l start).
Proof.
  intros Hs Hl. revert start Hs.
  induction Hl as [| v l Hv _ IH]; intros start Hs; simpl; [assumption |].
  apply IH. destruct Hs as [-> | ->], Hv as [-> | ->]; cbv; auto.
Qed.

(** The minimum is foreground exactly when everything under the mask is. *)
Lemma fold_min_foreground (l : list Z) :
  Forall is_binary l ->
  (fold_left Z.min l 255 = 255 <-> Forall (fun v => v = 255) l).
Proof.
  intros Hl. induction Hl as [| v l Hv Hl IH]; simpl.
  - split; [constructor | reflexivity].
  - destruct Hv as [-> | ->].
    + change (Z.min 255 0) with 0. split.
      * intros H. exfalso.
        assert (Hb : forall l', Forall is_binary l' -> fold_left Z.min l' 0 = 0).
        { induction 1 as [| w l' [-> | ->] _ IH']; simpl; auto. }
        rewrite (Hb l Hl) in H. discriminate.
      * intros H. inversion H; discriminate.
    + change (Z.min 255 255) with 255. rewrite IH. split.
      * intros H; constructor; [reflexivity | assumption].
      * intros H; inversion H; assumption.
Qed.

Lemma erode_sample_binary (plane : list (list Z)) (offsets : list (Z * Z))
      (y x : Z) :
  Forall (Forall is_binary) plane ->
  is_binary (cv2.erode_sample plane offsets y x).
Proof.
  intros H. unfold cv2.erode_sample.
  apply fold_min_binary; [right; reflexivity |].
  rewrite Forall_map. apply Forall_forall. intros [dy dx] _.
  apply at_or_binary; assumption.
Qed.

(** An eroded sample is foreground only if every sample under the mask,
    as far as the mask lies inside the image, is foreground. *)
Lemma erode_sample_foreground (plane : list (list Z)) (offsets : list (Z * Z))
      (y x : Z) :
  Forall (Forall is_binary) plane ->
  (cv2.erode_sample plane offsets y x = 255
   <-> forall dy dx, In (dy, dx) offsets ->
                     cv2.at_or 255 plane (y + dy) (x + dx) = 255).
Proof.
  intros H. unfold cv2.erode_sample.
  rewrite fold_min_foreground.
  - rewrite Forall_map, Forall_forall. split.
    + intros Hall dy dx Hin. exact (Hall (dy, dx) Hin).
    + intros Hall [dy dx] Hin. exact (Hall dy dx Hin).
  - rewrite Forall_map. apply Forall_forall. intros [dy dx] _.
    apply at_or_binary; assumption.
Qed.

Lemma erode_plane_binary (offsets : list (Z * Z)) (plane : list (list Z)) :
  Forall (Forall is_binary) plane ->
  Forall (Forall is_binary) (cv2.erode_plane offsets plane).
Proof.
  intros H. unfold cv2.erode_plane.
  rewrite Forall_map. apply Forall_forall. intros [y row] _.
  rewrite Forall_map. apply Forall_forall. intros [x v] _.
  apply erode_sample_binary; assumption.
Qed.

Lemma erode_Gray_once (plane : list (list Z)) (kernel : list (list Z)) :
  cv2.erode (Gray plane) kernel 1
  = Gray (cv2.erode_plane (cv2.kernel_offsets kernel) plane).
Proof. reflexivity. Qed.


Lemma square_offsets :
  cv2.kernel_offsets (cv2.getStructuringElement cv2.MORPH_RECT (5, 5))
  = list_prod [-2; -1; 0; 1; 2] [-2; -1; 0; 1; 2].
Proof. reflexivity. Qed.

(** What the mask of [erosion_cross] is: the middle row and column. *)
Lemma cross_offsets :
  cv2.kernel_offsets (cv2.getStructuringElement cv2.MORPH_CROSS (5, 5))
  = [(-2, 0); (-1, 0); (0, -2); (0, -1); (0, 0); (0, 1); (0, 2); (1, 0); (2, 0)].
Proof. reflexivity. Qed.

(** *** Fixed points of the erosion *)

Lemma enumerate_from (A : Type) (l : list A) (s : nat) (i : Z) (x : A) :
  In (i, x) (combine (map Z.of_nat (seq s (length l))) l) ->
  exists k, i = Z.of_nat (s + k) /\ nth_error l k = Some x.
Proof.
  revert s. induction l as [| a l IH]; intros s Hin; simpl in Hin.
  - contradiction.
  - destruct Hin as [Heq | Hin].
    + injection Heq as <- <-. exists 0%nat. split; [f_equal; lia | reflexivity].
    + destruct (IH (S s) Hin) as (k & -> & Hk).
      exists (S k). split; [f_equal; lia | exact Hk].
Qed.

(** [enumerate] pairs every element with its own position. *)
Lemma enumerate_In (A : Type) (l : list A) (i : Z) (x : A) :
  In (i, x) (cv2.enumerate l) ->
  0 <= i /\ nth_error l (Z.to_nat i) = Some x.
Proof.
  intros Hin. destruct (enumerate_from A l 0 i x Hin) as (k & -> & Hk).
  split; [lia |]. rewrite Nat2Z.id. exact Hk.
Qed.

(** A sample inside the plane reads as itself. *)
Lemma at_or_inside (border : Z) (plane : list (list Z)) (row : list Z)
      (y x v : Z) :
  0 <= y -> 0 <= x ->
  nth_error plane (Z.to_nat y) = Some row ->
  nth_error row (Z.to_nat x) = Some v ->
  cv2.at_or border plane y x = v.
Proof.
  intros Hy Hx Hrow Hv. unfold cv2.at_or.
  replace (y <? 0) with false by (symmetry; apply Z.ltb_ge; lia).
  replace (x <? 0) with false by (symmetry; apply Z.ltb_ge; lia).
  simpl. rewrite Hrow, Hv. reflexivity.
Qed.

Lemma fold_min_background (l : list Z) :
  Forall is_binary l -> In 0 l -> fold_left Z.min l 255 = 0.
Proof.
  intros Hl Hin.
  destruct (fold_min_binary l 255 (or_intror eq_refl) Hl) as [H0 | H255];
    [exact H0 |].
  apply (fold_min_foreground l Hl) in H255.
  rewrite Forall_forall in H255. specialize (H255 0 Hin). discriminate H255.
Qed.

(** An all-foreground plane stays all foreground, whatever the mask. *)
Lemma erode_plane_all_foreground (offsets : list (Z * Z)) (plane : list (list Z)) :
  Forall (Forall (fun v => v = 255)) plane ->
  Forall (Forall (fun v => v = 255)) (cv2.erode_plane offsets plane).
Proof.
  intros H.
  assert (Hb : Forall (Forall is_binary) plane).
  { revert H. apply Forall_impl. intros row. apply Forall_impl.
    intros v ->. right. reflexivity. }
  unfold cv2.erode_plane.
  rewrite Forall_map. apply Forall_forall. intros [y row] _.
  rewrite Forall_map. apply Forall_forall. intros [x v] _.
  apply (erode_sample_foreground plane offsets y x Hb).
  intros dy dx _. unfold cv2.at_or.
  destruct ((y + dy <? 0) || (x + dx <? 0)); [reflexivity |].
  destruct (nth_error plane (Z.to_nat (y + dy))) as [r |] eqn:Hr; [| reflexivity].
  destruct (nth_error r (Z.to_nat (x + dx))) as [u |] eqn:Hu; [| reflexivity].
  apply nth_error_In in Hr, Hu.
  rewrite Forall_forall in H. specialize (H r Hr).
  rewrite Forall_forall in H. exact (H u Hu).
Qed.

(** An all-background plane stays all background under a mask that
    contains its own centre. *)
Lemma erode_plane_all_background (offsets : list (Z * Z)) (plane : list (list Z)) :
  In (0, 0) offsets ->
  Forall (Forall (fun v => v = 0)) plane ->
  Forall (Forall (fun v => v = 0)) (cv2.erode_plane offsets plane).
Proof.
  intros Hc H.
  assert (Hb : Forall (Forall is_binary) plane).
  { revert H. apply Forall_impl. intros row. apply Forall_impl.
    intros v ->. left. reflexivity. }
  unfold cv2.erode_plane.
  rewrite Forall_map. apply Forall_forall. intros [y row] Hy.
  rewrite Forall_map. apply Forall_forall. intros [x v] Hx.
  destruct (enumerate_In _ plane y row Hy) as [Hy0 Hrow].
  destruct (enumerate_In _ row x v Hx) as [Hx0 Hv].
  assert (Hv0 : v = 0).
  { apply nth_error_In in Hrow, Hv.
    rewrite Forall_forall in H. specialize (H row Hrow).
    rewrite Forall_forall in H. exact (H v Hv). }
  subst v. unfold cv2.erode_sample. apply fold_min_background.
  - rewrite Forall_map. apply Forall_forall. intros [dy dx] _.
    apply at_or_binary; assumption.
  - apply in_map_iff. exists (0, 0). split; [| exact Hc].
    rewrite !Z.add_0_r. apply (at_or_inside 255 plane row y x 0); assumption.
Qed.

Lemma threshold_gray_binarized (rows : list (list pixel)) :
  cv2.threshold_binary (Gray (map (map cv2.rgb2gray) rows)) 127 255
  = Gray (binarized rows).
Proof.
  unfold cv2.threshold_binary, np.map_samples, binarized. f_equal.
  rewrite map_map. apply map_ext. intros row. rewrite map_map. reflexivity.
Qed.

Lemma binarized_binary (rows : list (list pixel)) :
  Forall (Forall is_binary) (binarized rows).
Proof.
  unfold binarized. rewrite Forall_map. apply Forall_forall. intros row _.
  rewrite Forall_map. apply Forall_forall. intros p _.
  destruct (cv2.rgb2gray p >? 127); [right | left]; reflexivity.
Qed.

(** *** The erosion, position by position *)









(** What a readable file leaves as original buffer, pixel by pixel. *)
Lemma loaded_rgb (file : cv2.stored) : loaded file = Color (rgb_of_file file).
Proof.
  destruct file as [rows | rows]; reflexivity.
Qed.

Lemma square_mask_has_centre :
  In (0, 0) (cv2.kernel_offsets (cv2.getStructuringElement cv2.MORPH_RECT (5, 5))).
Proof. rewrite square_offsets. simpl. tauto. Qed.


(* ================================================================== *)
(** ** Facts about binary64 arithmetic *)
(* ================================================================== *)

Lemma min3_candidates (a b c : float) :
  Float64.min3 a b c = a \/ Float64.min3 a b c = b \/ Float64.min3 a b c = c.
Proof.
  unfold Float64.min3.
  destruct (Float64.ltb b a), (Float64.ltb c _); auto.
Qed.

(** [min(a, b, c)] is not greater than [c], whatever [a] and [b] are. *)
Lemma min3_not_above_last (a b c : float) :
  Float64.ltb c c = false -> Float64.ltb c (Float64.min3 a b c) = false.
Proof.
  intros Hc. unfold Float64.min3.
  destruct (Float64.ltb c (if Float64.ltb b a then b else a)) eqn:E;
    assumption.
Qed.

(** *** Bit lengths *)

Lemma digits2_pos_size (p : positive) : digits2_pos p = Pos.size p.
Proof. induction p; simpl; congruence. Qed.

Lemma digits2_log2 (p : positive) :
  Zpos (digits2_pos p) = Z.log2 (Zpos p) + 1.
Proof.
  destruct p; simpl; rewrite ?digits2_pos_size; lia.
Qed.

Lemma Zdigits2_nonneg (m : Z) : 0 <= Zdigits2 m.
Proof. destruct m; simpl; lia. Qed.

(** A number of [d] bits is below [2^d]. *)
Lemma Zdigits2_upper (m : Z) : 0 <= m -> m < 2 ^ Zdigits2 m.
Proof.
  intros H. destruct m as [| p | p]; [reflexivity | | lia].
  simpl Zdigits2. rewrite digits2_log2.
  apply (Z.log2_spec (Zpos p)). lia.
Qed.

(** A number below [2^d] has at most [d] bits. *)
Lemma Zdigits2_le (m d : Z) : 0 <= m -> 0 <= d -> m < 2 ^ d -> Zdigits2 m <= d.
Proof.
  intros Hm Hd H. destruct m as [| p | p]; [exact Hd | | lia].
  simpl Zdigits2. rewrite digits2_log2.
  assert (Z.log2 (Zpos p) < d) by (apply Z.log2_lt_pow2; lia).
  lia.
Qed.

(** A number of exactly [d] bits is at least [2^(d-1)]. *)
Lemma Zdigits2_lower (m d : Z) : 0 < m -> Zdigits2 m = d -> 2 ^ (d - 1) <= m.
Proof.
  intros Hm <-. destruct m as [| p | p]; try lia.
  simpl Zdigits2. rewrite digits2_log2.
  replace (Z.log2 (Zpos p) + 1 - 1) with (Z.log2 (Zpos p)) by lia.
  apply (Z.log2_spec (Zpos p)). lia.
Qed.

(** *** Shifting a mantissa right *)

Lemma iter_pos_nat {A : Type} (f : A -> A) (p : positive) (x : A) :
  iter_pos f p x = Nat.iter (Pos.to_nat p) f x.
Proof.
  revert x. induction p as [p IH | p IH |]; intros x; simpl iter_pos.
  - rewrite !IH, Pos2Nat.inj_xI.
    replace (S (2 * Pos.to_nat p)) with (S (Pos.to_nat p + Pos.to_nat p))%nat by lia.
    rewrite Nat.iter_succ_r, Nat.iter_add. reflexivity.
  - rewrite !IH, Pos2Nat.inj_xO.
    replace (2 * Pos.to_nat p)%nat with (Pos.to_nat p + Pos.to_nat p)%nat by lia.
    rewrite Nat.iter_add. reflexivity.
  - reflexivity.
Qed.

Lemma shr_1_nonneg (m : Z) (r s : bool) :
  0 <= m ->
  shr_1 {| shr_m := m; shr_r := r; shr_s := s |}
  = {| shr_m := m / 2; shr_r := Z.odd m; shr_s := r || s |}.
Proof.
  intros H. rewrite <- Z.div2_div.
  destruct m as [| [p | p |] | p]; try reflexivity; lia.
Qed.

(** [n] single shifts divide by [2^n]; nothing is recorded as lost when
    nothing is. *)
Lemma iter_shr_1 (n : nat) (m : Z) (r s : bool) :
  0 <= m ->
  let R := Nat.iter n shr_1 {| shr_m := m; shr_r := r; shr_s := s |} in
  shr_m R = m / 2 ^ Z.of_nat n /\
  (r = false -> s = false -> m mod 2 ^ Z.of_nat n = 0 ->
   shr_r R = false /\ shr_s R = false).
Proof.
  revert m r s. induction n as [| n IH]; intros m r s Hm.
  - simpl. rewrite Z.div_1_r. auto.
  - cbv zeta. rewrite Nat.iter_succ_r, (shr_1_nonneg m r s Hm).
    assert (Hm2 : 0 <= m / 2) by (apply Z.div_pos; lia).
    destruct (IH (m / 2) (Z.odd m) (r || s) Hm2) as [IHm IHe].
    assert (Hpow : 2 ^ Z.of_nat (S n) = 2 * 2 ^ Z.of_nat n).
    { rewrite Nat2Z.inj_succ, Z.pow_succ_r by lia. reflexivity. }
    assert (Hpos : 0 < 2 ^ Z.of_nat n) by (apply Z.pow_pos_nonneg; lia).
    split.
    + rewrite IHm, Hpow, Z.div_div by lia. reflexivity.
    + intros -> -> Hmod. rewrite Hpow in Hmod.
      apply Z.mod_divide in Hmod; [| lia]. destruct Hmod as [k Hk].
      assert (Hhalf : m / 2 = k * 2 ^ Z.of_nat n).
      { subst m. replace (k * (2 * 2 ^ Z.of_nat n)) with (k * 2 ^ Z.of_nat n * 2) by ring.
        apply Z.div_mul. lia. }
      assert (Hodd : Z.odd m = false).
      { subst m. replace (k * (2 * 2 ^ Z.of_nat n)) with (2 * (k * 2 ^ Z.of_nat n)) by ring.
        apply Z.odd_even. }
      apply IHe.
      * exact Hodd.
      * reflexivity.
      * rewrite Hhalf. apply Z.mod_mul. lia.
Qed.

Lemma shr_record_of_loc_m (m : Z) (l : location) :
  shr_m (shr_record_of_loc m l) = m.
Proof. destruct l as [| []]; reflexivity. Qed.

Lemma shr_fexp_spec (m e : Z) (l : location) :
  0 <= m ->
  snd (shr_fexp Float64.prec Float64.emax m e l) = e + shift_of m e /\
  shr_m (fst (shr_fexp Float64.prec Float64.emax m e l)) = m / 2 ^ shift_of m e /\
  (l = loc_Exact -> m mod 2 ^ shift_of m e = 0 ->
   loc_of_shr_record (fst (shr_fexp Float64.prec Float64.emax m e l)) = loc_Exact).
Proof.
  intros Hm. unfold shr_fexp, shift_of, shr.
  destruct (fexp Float64.prec Float64.emax (Zdigits2 m + e) - e) as [| p | p] eqn:En.
  - simpl. rewrite Z.add_0_r, Z.div_1_r, shr_record_of_loc_m.
    repeat split. intros -> _. reflexivity.
  - cbn [fst snd]. rewrite Z.max_r by lia.
    rewrite iter_pos_nat.
    assert (Hrec : exists r s, shr_record_of_loc m l
                               = {| shr_m := m; shr_r := r; shr_s := s |}
                               /\ (l = loc_Exact -> r = false /\ s = false)).
    { destruct l as [| []]; do 2 eexists; (split; [reflexivity |]);
        intros H; try discriminate H; auto. }
    destruct Hrec as (r & s & -> & Hl).
    destruct (iter_shr_1 (Pos.to_nat p) m r s Hm) as [H1 H2].
    rewrite positive_nat_Z in H1, H2.
    repeat split; [exact H1 |].
    intros Hex Hmod. destruct (Hl Hex) as [-> ->].
    destruct (H2 eq_refl eq_refl Hmod) as [Hr Hs].
    destruct (Nat.iter _ _ _) as [m' r' s']; simpl in Hr, Hs; subst; reflexivity.
  - simpl. rewrite Z.add_0_r, Z.div_1_r, shr_record_of_loc_m.
    repeat split. intros -> _. reflexivity.
Qed.

Lemma round_nearest_even_bounds (m : Z) (l : location) :
  m <= round_nearest_even m l <= m + 1 /\
  (l = loc_Exact -> round_nearest_even m l = m).
Proof.
  destruct l as [| []]; simpl; try destruct (Z.even m); split;
    try lia; intros H; try discriminate H; reflexivity.
Qed.

(** *** Rounding below an integer bound *)

Lemma pow2_pos (n : Z) : 0 <= n -> 0 < 2 ^ n.
Proof. intros H. apply Z.pow_pos_nonneg; lia. Qed.

Lemma shift_bound (w m e : Z) :
  1 <= w < 2 ^ 53 -> e <= 0 -> 0 <= m <= w * 2 ^ (- e) ->
  0 <= shift_of m e /\
  e + shift_of m e <= 0 /\
  m <= w * 2 ^ (- (e + shift_of m e)) * 2 ^ shift_of m e.
Proof.
  intros Hw He Hm.
  assert (Hd : Zdigits2 m <= 53 - e).
  { apply Zdigits2_le; [lia | lia |].
    replace (53 - e) with (53 + - e) by lia.
    rewrite Z.pow_add_r by lia.
    pose proof (pow2_pos (- e) ltac:(lia)). nia. }
  unfold shift_of, fexp, emin, Float64.prec, Float64.emax.
  split; [lia | split; [lia |]].
  set (n := Z.max 0 (Z.max (Zdigits2 m + e - 53) (3 - 1024 - 53) - e)) in *.
  assert (Hn : 0 <= n) by lia.
  assert (Hen : e + n <= 0) by lia.
  rewrite <- Z.mul_assoc, <- Z.pow_add_r by lia.
  replace (- (e + n) + n) with (- e) by lia. lia.
Qed.

(** Rounding to nearest does not step over an integer that the exact
    value does not exceed. *)
Lemma round_at_most (w m e : Z) :
  1 <= w < 2 ^ 53 -> e <= 0 -> 0 <= m <= w * 2 ^ (- e) ->
  at_most w (binary_round_aux Float64.prec Float64.emax false m e loc_Exact).
Proof.
  intros Hw He Hm. unfold binary_round_aux.
  destruct (shr_fexp_spec m e loc_Exact (proj1 Hm)) as (He1 & Hm1 & Hx1).
  destruct (shift_bound w m e Hw He Hm) as (Hn & Hen & Hb).
  destruct (shr_fexp Float64.prec Float64.emax m e loc_Exact) as [mrs1 e1].
  cbn [fst snd] in He1, Hm1, Hx1. subst e1.
  set (n := shift_of m e) in *.
  set (K := w * 2 ^ (- (e + n))) in *.
  pose proof (pow2_pos n Hn) as Hpn.
  set (m2 := round_nearest_even (shr_m mrs1) (loc_of_shr_record mrs1)).
  assert (Hm2 : 0 <= m2 <= K).
  { destruct (round_nearest_even_bounds (shr_m mrs1) (loc_of_shr_record mrs1))
      as [Hr Hre].
    fold m2 in Hr, Hre. rewrite Hm1 in Hr, Hre.
    assert (H0 : 0 <= m / 2 ^ n) by (apply Z.div_pos; lia).
    assert (HK : m / 2 ^ n <= K) by (apply Z.div_le_upper_bound; lia).
    split; [lia |].
    destruct (Z.eq_dec (m / 2 ^ n) K) as [Heq | Hne]; [| lia].
    assert (Hexact : m = K * 2 ^ n).
    { pose proof (Z.mul_div_le m (2 ^ n) Hpn). rewrite Heq in H. lia. }
    rewrite Hre; [lia |]. apply Hx1; [reflexivity |].
    rewrite Hexact. apply Z.mod_mul. lia. }
  destruct (shr_fexp_spec m2 (e + n) loc_Exact (proj1 Hm2)) as (He3 & Hm3 & _).
  destruct (shift_bound w m2 (e + n) Hw Hen Hm2) as (Hn2 & Hen2 & Hb2).
  destruct (shr_fexp Float64.prec Float64.emax m2 (e + n) loc_Exact) as [mrs3 e3].
  cbn [fst snd] in He3, Hm3. subst e3.
  set (n2 := shift_of m2 (e + n)) in *.
  pose proof (pow2_pos n2 Hn2) as Hpn2.
  assert (H3 : 0 <= shr_m mrs3 <= w * 2 ^ (- (e + n + n2))).
  { rewrite Hm3. split; [apply Z.div_pos; lia |].
    apply Z.div_le_upper_bound; lia. }
  assert (Hle : (e + n + n2 <=? Float64.emax - Float64.prec) = true).
  { apply Z.leb_le. unfold Float64.emax, Float64.prec. lia. }
  rewrite Hle.
  destruct (shr_m mrs3) as [| p | p].
  - exact I.
  - split; [lia | exact (proj2 H3)].
  - lia.
Qed.

Lemma round_shaped (m e : Z) (l : location) :
  0 <= m ->
  shaped (binary_round_aux Float64.prec Float64.emax false m e l).
Proof.
  intros Hm. unfold binary_round_aux.
  destruct (shr_fexp_spec m e l Hm) as (He1 & Hm1 & _).
  destruct (shr_fexp Float64.prec Float64.emax m e l) as [mrs1 e1].
  cbn [fst snd] in He1, Hm1.
  set (m2 := round_nearest_even (shr_m mrs1) (loc_of_shr_record mrs1)).
  assert (Hm2 : 0 <= m2).
  { pose proof (proj1 (round_nearest_even_bounds (shr_m mrs1)
                                                  (loc_of_shr_record mrs1))) as Hr.
    fold m2 in Hr. rewrite Hm1 in Hr.
    assert (0 <= m / 2 ^ shift_of m e).
    { apply Z.div_pos; [lia |]. apply pow2_pos. unfold shift_of. lia. }
    lia. }
  destruct (shr_fexp_spec m2 e1 loc_Exact Hm2) as (He3 & Hm3 & _).
  destruct (shr_fexp Float64.prec Float64.emax m2 e1 loc_Exact) as [mrs3 e3].
  cbn [fst snd] in He3, Hm3.
  set (n2 := shift_of m2 e1) in *.
  assert (Hn2 : 0 <= n2 /\ Zdigits2 m2 <= n2 + 53).
  { unfold n2, shift_of, fexp, Float64.prec. lia. }
  pose proof (pow2_pos n2 (proj1 Hn2)) as Hpn2.
  assert (H3 : 0 <= shr_m mrs3 < 2 ^ 53).
  { rewrite Hm3. split; [apply Z.div_pos; lia |].
    apply Z.div_lt_upper_bound; [lia |].
    rewrite <- Z.pow_add_r by lia.
    apply Z.lt_le_trans with (2 ^ Zdigits2 m2).
    - apply Zdigits2_upper; assumption.
    - apply Z.pow_le_mono_r; lia. }
  destruct (shr_m mrs3) as [| p | p].
  - reflexivity.
  - destruct (e3 <=? Float64.emax - Float64.prec); [| reflexivity].
    split; [reflexivity | exact (proj2 H3)].
  - lia.
Qed.

(** *** Integers as floats *)

Lemma iter_xO (p k : positive) : Zpos (Pos.iter xO p k) = Zpos p * 2 ^ Zpos k.
Proof.
  rewrite <- Z.shiftl_mul_pow2 by lia.
  apply (Pos.iter_swap_gen _ _ Zpos xO (Z.mul 2)). reflexivity.
Qed.

(** A 53-bit mantissa with an exponent in range needs no rounding. *)
Lemma round_canonical (m : positive) (e : Z) :
  Zdigits2 (Zpos m) = 53 -> -52 <= e <= 0 ->
  binary_round_aux Float64.prec Float64.emax false (Zpos m) e loc_Exact
  = S754_finite false m e.
Proof.
  intros Hm Hr. unfold binary_round_aux.
  assert (Hs : shift_of (Zpos m) e = 0).
  { unfold shift_of, fexp, emin, Float64.prec, Float64.emax. rewrite Hm. lia. }
  destruct (shr_fexp_spec (Zpos m) e loc_Exact ltac:(lia)) as (He1 & Hm1 & Hx1).
  rewrite Hs in He1, Hm1, Hx1. rewrite Z.add_0_r in He1. rewrite Z.div_1_r in Hm1.
  specialize (Hx1 eq_refl (Z.mod_1_r _)).
  destruct (shr_fexp Float64.prec Float64.emax (Zpos m) e loc_Exact) as [mrs1 e1] eqn:E1.
  cbn [fst snd] in He1, Hm1, Hx1. subst e1. rewrite Hx1, Hm1.
  cbn [round_nearest_even]. rewrite E1. rewrite Hm1.
  replace (e <=? Float64.emax - Float64.prec) with true; [reflexivity |].
  symmetry. apply Z.leb_le. unfold Float64.emax, Float64.prec. lia.
Qed.

(** An integer below [2^53] converts exactly and is not zero. *)
Lemma of_Z_small (p : positive) :
  Zpos p < 2 ^ 53 ->
  exists m e, Float64.of_Z (Zpos p) = S754_finite false m e /\
              e <= 0 /\ Zpos m = Zpos p * 2 ^ (- e) /\ 2 ^ 52 <= Zpos m.
Proof.
  intros Hp.
  assert (Hd : 1 <= Zpos (digits2_pos p) <= 53).
  { split; [lia |]. apply (Zdigits2_le (Zpos p) 53); lia. }
  unfold Float64.of_Z, binary_normalize, binary_round, shl_align.
  set (ez := fexp Float64.prec Float64.emax (Zpos (digits2_pos p) + 0)).
  assert (Hez : ez = Zpos (digits2_pos p) - 53).
  { unfold ez, fexp, emin, Float64.prec, Float64.emax. lia. }
  destruct (ez - 0) as [| k | k] eqn:Ek.
  - assert (H53 : Zdigits2 (Zpos p) = 53) by (simpl Zdigits2; lia).
    exists p, 0. rewrite round_canonical; [| exact H53 | lia].
    repeat split; [lia | lia |].
    apply (Zdigits2_lower (Zpos p) 53); [lia | exact H53].
  - lia.
  - assert (Hk : Zpos k = - ez) by lia.
    assert (H53 : Zdigits2 (Zpos (Pos.iter xO p k)) = 53).
    { simpl Zdigits2. rewrite digits2_log2, iter_xO.
      rewrite Z.log2_mul_pow2 by lia.
      rewrite digits2_log2 in Hez. lia. }
    exists (Pos.iter xO p k), ez.
    rewrite round_canonical; [| exact H53 | lia].
    repeat split; [lia | |].
    + rewrite iter_xO, Hk. reflexivity.
    + apply (Zdigits2_lower _ 53); [lia | exact H53].
Qed.

(** Any positive integer converts to a float that is not negative and
    not nan. *)
Lemma of_Z_shaped (p : positive) : shaped (Float64.of_Z (Zpos p)).
Proof.
  unfold Float64.of_Z, binary_normalize, binary_round.
  destruct (shl_align p 0 _) as [mz ez]. apply round_shaped. lia.
Qed.

(** *** The operations of [display_image] *)

Lemma div_shaped (x y : float) (m : positive) (e : Z) :
  shaped x -> y = S754_finite false m e -> shaped (Float64.div x y).
Proof.
  intros Hx ->. unfold Float64.div, SFdiv.
  destruct x as [s | s | | s mx ex]; simpl in Hx.
  - subst s. reflexivity.
  - subst s. reflexivity.
  - contradiction.
  - destruct Hx as [-> _]. unfold SFdiv_core_binary.
    set (m' := match _ - _ - _ with
               | 0 => Zpos mx
               | Zpos _ => Z.shiftl (Zpos mx) _
               | Zneg _ => 0
               end).
    assert (Hm' : 0 <= m').
    { unfold m'. destruct (_ - _ - _); [lia | | lia].
      apply Z.shiftl_nonneg. lia. }
    pose proof (Z.div_pos m' (Zpos m) Hm' ltac:(lia)) as Hq.
    unfold Z.div in Hq.
    destruct (Z.div_eucl m' (Zpos m)) as [q r].
    apply round_shaped. exact Hq.
Qed.

Lemma one_is : Float64.of_Z 1 = S754_finite false 4503599627370496 (-52).
Proof. vm_compute. reflexivity. Qed.

(** A float that is not greater than the integer [k] is at most [k]. *)
Lemma not_above (k : Z) (s : float) :
  1 <= k < 2 ^ 53 ->
  shaped s -> Float64.ltb (Float64.of_Z k) s = false -> at_most k s.
Proof.
  intros Hk Hs. destruct k as [| pk | pk]; try lia.
  destruct (of_Z_small pk (proj2 Hk)) as (mk & ek & -> & Hek & Hmk & Hlow).
  unfold Float64.ltb, SFltb, SFcompare.
  destruct s as [sg | sg | | sg m e]; unfold shaped in Hs.
  - intros _. exact I.
  - subst sg. discriminate.
  - contradiction.
  - destruct Hs as [-> Hm]. unfold at_most.
    destruct (Z.compare_spec ek e) as [He | He | He].
    + subst e. rewrite Pos.compare_cont_spec. unfold Pos.switch_Eq.
      change (mk ?= m)%positive with (Zpos mk ?= Zpos m).
      destruct (Z.compare_spec (Zpos mk) (Zpos m)) as [Hc | Hc | Hc];
        intros H; try discriminate H; split; lia.
    + discriminate.
    + intros _. split; [lia |].
      replace (- e) with (- ek + (ek - e)) by lia.
      rewrite Z.pow_add_r, Z.mul_assoc, <- Hmk by lia.
      assert (2 ^ 1 <= 2 ^ (ek - e)) by (apply Z.pow_le_mono_r; lia).
      change (2 ^ 1) with 2 in H.
      change (2 ^ 53) with (2 ^ 52 * 2) in Hm.
      nia.
Qed.

Lemma not_above_one (s : float) :
  shaped s -> Float64.ltb (Float64.of_Z 1) s = false -> at_most 1 s.
Proof. apply not_above. split; [lia | reflexivity]. Qed.

Lemma mul_at_most (w : Z) (x s : float) :
  1 <= w < 2 ^ 53 -> at_most w x -> at_most 1 s ->
  at_most w (Float64.mul x s).
Proof.
  intros Hw Hx Hs. unfold Float64.mul, SFmul.
  destruct x as [sx | sx | | [|] mx ex]; unfold at_most in Hx; try contradiction;
    destruct s as [ss | ss | | [|] ms es]; unfold at_most in Hs; try contradiction;
    try exact I.
  destruct Hx as [Hex Hmx], Hs as [Hes Hms]. rewrite Z.mul_1_l in Hms.
  change (xorb false false) with false.
  apply round_at_most; [assumption | lia |].
  split; [lia |].
  replace (- (ex + es)) with (- ex + - es) by lia.
  rewrite Z.pow_add_r by lia.
  pose proof (pow2_pos (- ex) ltac:(lia)).
  pose proof (pow2_pos (- es) ltac:(lia)).
  rewrite Pos2Z.inj_mul. nia.
Qed.

Lemma trunc_at_most (w : Z) (x : float) :
  0 <= w -> at_most w x ->
  exists z, Float64.trunc x = Some z /\ 0 <= z <= w.
Proof.
  intros Hw Hx.
  destruct x as [s | s | | [|] m e]; unfold at_most in Hx; try contradiction.
  - exists 0. split; [reflexivity | lia].
  - destruct Hx as [He Hm]. unfold Float64.trunc.
    destruct e as [| p | p]; [| lia |].
    + exists (Zpos m). split; [reflexivity |].
      change (- 0) with 0 in Hm. rewrite Z.pow_0_r in Hm. lia.
    + exists (Z.shiftr (Zpos m) (Zpos p)). split; [reflexivity |].
      rewrite Z.shiftr_div_pow2 by lia.
      change (- Zneg p) with (Zpos p) in Hm.
      pose proof (pow2_pos (Zpos p) ltac:(lia)).
      split; [apply Z.div_pos; lia |].
      apply Z.div_le_upper_bound; lia.
Qed.

Lemma of_Z_at_most (w : Z) :
  1 <= w < 2 ^ 53 -> at_most w (Float64.of_Z w).
Proof.
  intros Hw. destruct w as [| p | p]; try lia.
  destruct (of_Z_small p (proj2 Hw)) as (m & e & -> & He & Hm & _).
  unfold at_most. split; [exact He | lia].
Qed.

Lemma min3_shaped (a b c : float) :
  shaped a -> shaped b -> shaped c -> shaped (Float64.min3 a b c).
Proof.
  intros Ha Hb Hc.
  destruct (min3_candidates a b c) as [-> | [-> | ->]]; assumption.
Qed.

(** The quotient of a positive integer by an image dimension. *)
Lemma ratio_shaped (c w : Z) :
  1 <= c -> 1 <= w < 2 ^ 53 ->
  shaped (Float64.div (Float64.of_Z c) (Float64.of_Z w)).
Proof.
  intros Hc Hw.
  destruct c as [| pc | pc]; try lia.
  destruct w as [| pw | pw]; try lia.
  destruct (of_Z_small pw (proj2 Hw)) as (m & e & Hof & _).
  apply (div_shaped _ _ m e); [apply of_Z_shaped | exact Hof].
Qed.

Lemma display_scale_at_most_one (winfo_width winfo_height h w : Z) :
  1 <= w < 2 ^ 53 -> 1 <= h < 2 ^ 53 ->
  at_most 1 (display_scale winfo_width winfo_height h w).
Proof.
  intros Hw Hh. apply not_above_one.
  - unfold display_scale. apply min3_shaped.
    + apply ratio_shaped; [lia | assumption].
    + apply ratio_shaped; [lia | assumption].
    + rewrite one_is. split; [reflexivity |]. vm_compute. reflexivity.
  - apply min3_not_above_last. vm_compute. reflexivity.
Qed.

(** Whatever the canvas, the image is drawn at a size between one pixel
    and its own size. *)
Lemma display_size_within (winfo_width winfo_height h w : Z) :
  1 <= w < 2 ^ 53 -> 1 <= h < 2 ^ 53 ->
  exists new_w new_h,
    display_size winfo_width winfo_height h w = Some (new_w, new_h) /\
    1 <= new_w <= w /\ 1 <= new_h <= h.
Proof.
  intros Hw Hh. unfold display_size.
  pose proof (display_scale_at_most_one winfo_width winfo_height h w Hw Hh) as Hs.
  destruct (trunc_at_most w _ ltac:(lia)
              (mul_at_most w _ _ Hw (of_Z_at_most w Hw) Hs)) as (sw & -> & Hsw).
  destruct (trunc_at_most h _ ltac:(lia)
              (mul_at_most h _ _ Hh (of_Z_at_most h Hh) Hs)) as (sh & -> & Hsh).
  exists (Z.max sw 1), (Z.max sh 1). split; [reflexivity | lia].
Qed.

(** The same for an image, through its shape. *)
Lemma resized_shape_within (winfo_width winfo_height : Z) (image : ndarray)
      (h w : Z) :
  np.shape2 image = (h, w) ->
  1 <= w < 2 ^ 53 -> 1 <= h < 2 ^ 53 ->
  exists new_w new_h,
    resized_shape winfo_width winfo_height image = Some (new_w, new_h) /\
    1 <= new_w <= w /\ 1 <= new_h <= h.
Proof.
  intros Hs Hw Hh. unfold resized_shape. rewrite Hs.
  apply display_size_within; assumption.
Qed.

(** *** The arithmetic of [apply_division] *)

Lemma ten_is : Float64.of_Z 10 = S754_finite false 5629499534213120 (-49).
Proof. vm_compute. reflexivity. Qed.

(** A value that passes [1.0 <= value <= 10.0] is finite and positive. *)
Lemma division_in_range_finite (v : float) :
  division_in_range v = true -> exists m e, v = S754_finite false m e.
Proof.
  unfold division_in_range, Float64.leb, SFleb. rewrite one_is, ten_is.
  destruct v as [s | [|] | | [|] m e]; try discriminate.
  intros _. exists m, e. reflexivity.
Qed.



(** *** Rounding between two integers *)

Lemma shift_split (w m e k : Z) :
  1 <= k <= 53 -> 0 <= w < 2 ^ k -> e <= 0 -> 0 <= m <= w * 2 ^ (- e) ->
  0 <= shift_of m e /\
  e + shift_of m e <= Z.max e (k - 53) /\
  2 ^ (- e) = 2 ^ (- (e + shift_of m e)) * 2 ^ shift_of m e.
Proof.
  intros Hk Hw He Hm.
  assert (Hd : Zdigits2 m <= k - e).
  { apply Zdigits2_le; [lia | lia |].
    replace (k - e) with (k + - e) by lia.
    rewrite Z.pow_add_r by lia.
    pose proof (pow2_pos (- e) ltac:(lia)). nia. }
  unfold shift_of, fexp, emin, Float64.prec, Float64.emax.
  set (n := Z.max 0 (Z.max (Zdigits2 m + e - 53) (3 - 1024 - 53) - e)).
  assert (Hn : 0 <= n) by lia.
  assert (Hen : e + n <= Z.max e (k - 53)) by lia.
  split; [exact Hn | split; [exact Hen |]].
  rewrite <- Z.pow_add_r by lia. f_equal. lia.
Qed.

(** Rounding to nearest keeps a value between two integers that it lies
    between, and does not raise the exponent above what the larger
    integer needs. *)
Lemma round_within (lo hi k m e : Z) (l : location) :
  1 <= k <= 53 -> 0 <= lo <= hi -> hi < 2 ^ k -> e <= 0 ->
  lo * 2 ^ (- e) <= m <= hi * 2 ^ (- e) ->
  l = loc_Exact \/ m < hi * 2 ^ (- e) ->
  within lo hi (Z.max e (k - 53))
         (binary_round_aux Float64.prec Float64.emax false m e l).
Proof.
  intros Hk Hlo Hhi He Hm Hl. unfold binary_round_aux.
  pose proof (pow2_pos (- e) ltac:(lia)) as Hpe.
  assert (Hm0 : 0 <= m) by nia.
  destruct (shr_fexp_spec m e l Hm0) as (He1 & Hm1 & Hx1).
  destruct (shift_split hi m e k Hk ltac:(lia) He ltac:(lia)) as (Hn & Hen & Hsplit).
  destruct (shr_fexp Float64.prec Float64.emax m e l) as [mrs1 e1].
  cbn [fst snd] in He1, Hm1, Hx1. subst e1.
  set (n := shift_of m e) in *.
  assert (Hen0 : e + n <= 0) by lia.
  pose proof (pow2_pos n Hn) as Hpn.
  pose proof (pow2_pos (- (e + n)) ltac:(lia)) as Hpen.
  set (P := 2 ^ (- (e + n))) in *.
  set (m2 := round_nearest_even (shr_m mrs1) (loc_of_shr_record mrs1)).
  assert (Hm2 : lo * P <= m2 <= hi * P).
  { destruct (round_nearest_even_bounds (shr_m mrs1) (loc_of_shr_record mrs1))
      as [Hr Hre].
    fold m2 in Hr, Hre. rewrite Hm1 in Hr, Hre.
    rewrite Hsplit in Hm, Hl.
    assert (Hlow : lo * P <= m / 2 ^ n) by (apply Z.div_le_lower_bound; nia).
    assert (Hup : m / 2 ^ n <= hi * P) by (apply Z.div_le_upper_bound; nia).
    split; [lia |].
    destruct (Z.eq_dec (m / 2 ^ n) (hi * P)) as [Heq | Hne]; [| lia].
    assert (Hexact : m = hi * P * 2 ^ n).
    { pose proof (Z.mul_div_le m (2 ^ n) Hpn) as Hmd. rewrite Heq in Hmd. nia. }
    rewrite Hre; [lia |]. apply Hx1.
    - destruct Hl as [Hl | Hl]; [exact Hl | nia].
    - rewrite Hexact. apply Z.mod_mul. lia. }
  assert (Hm20 : 0 <= m2) by nia.
  destruct (shr_fexp_spec m2 (e + n) loc_Exact Hm20) as (He3 & Hm3 & _).
  destruct (shift_split hi m2 (e + n) k Hk ltac:(lia) Hen0 ltac:(fold P; lia))
    as (Hn2 & Hen2 & Hsplit2).
  destruct (shr_fexp Float64.prec Float64.emax m2 (e + n) loc_Exact) as [mrs3 e3].
  cbn [fst snd] in He3, Hm3. subst e3.
  set (n2 := shift_of m2 (e + n)) in *.
  pose proof (pow2_pos n2 Hn2) as Hpn2.
  assert (Hen20 : e + n + n2 <= 0) by lia.
  pose proof (pow2_pos (- (e + n + n2)) ltac:(lia)) as Hpen2.
  fold P in Hsplit2. set (P2 := 2 ^ (- (e + n + n2))) in *.
  assert (H3 : lo * P2 <= shr_m mrs3 <= hi * P2).
  { rewrite Hm3. rewrite Hsplit2 in Hm2. split.
    - apply Z.div_le_lower_bound; nia.
    - apply Z.div_le_upper_bound; nia. }
  assert (Hle : (e + n + n2 <=? Float64.emax - Float64.prec) = true).
  { apply Z.leb_le. unfold Float64.emax, Float64.prec. lia. }
  rewrite Hle.
  destruct (shr_m mrs3) as [| p | p].
  - unfold within. nia.
  - unfold within. fold P2. split; [lia | exact H3].
  - nia.
Qed.

Lemma within_at_most (lo hi top : Z) (x : float) :
  top <= 0 -> within lo hi top x -> at_most hi x.
Proof.
  intros Ht. destruct x as [s | s | | [|] m e]; simpl; auto.
  intros (He & _ & Hm). split; [lia | exact Hm].
Qed.

Lemma digits_53 (m : Z) : 2 ^ 52 <= m < 2 ^ 53 -> Zdigits2 m = 53.
Proof.
  intros [Hl Hu].
  assert (H0 : 0 < m) by (pose proof (pow2_pos 52 ltac:(lia)); lia).
  assert (Hle : Zdigits2 m <= 53) by (apply Zdigits2_le; lia).
  pose proof (Zdigits2_nonneg m) as Hn.
  pose proof (Zdigits2_upper m ltac:(lia)) as Hup.
  destruct (Z_lt_le_dec (Zdigits2 m) 53) as [Hlt | Hge]; [| lia].
  assert (2 ^ Zdigits2 m <= 2 ^ 52) by (apply Z.pow_le_mono_r; lia).
  lia.
Qed.

Lemma new_location_exact (n : Z) : new_location n 0 = loc_Exact.
Proof. unfold new_location. destruct (Z.even n); reflexivity. Qed.

(** The quotient of the integer [X] by a float of at least one is a
    float of at most [X]; it is at least one when the divisor is at most
    [X]. *)
Lemma div_within (X k lo : Z) (m1 m2 : positive) (e1 e2 : Z) :
  1 <= k <= 53 -> X < 2 ^ k ->
  -52 <= e1 <= 0 -> Zpos m1 = X * 2 ^ (- e1) -> 2 ^ 52 <= Zpos m1 < 2 ^ 53 ->
  -52 <= e2 <= 0 -> 2 ^ 52 <= Zpos m2 < 2 ^ 53 ->
  lo = 0 \/ (lo = 1 /\ Zpos m2 <= X * 2 ^ (- e2)) ->
  within lo X (Z.max (e1 - e2 - 53) (k - 53))
         (Float64.div (S754_finite false m1 e1) (S754_finite false m2 e2)).
Proof.
  intros Hk HX He1 Hm1 Hb1 He2 Hb2 Hlo.
  pose proof (pow2_pos (- e1) ltac:(lia)) as Hp1.
  pose proof (pow2_pos (- e2) ltac:(lia)) as Hp2.
  assert (HX1 : 1 <= X) by nia.
  unfold Float64.div, SFdiv, SFdiv_core_binary.
  rewrite (digits_53 _ Hb1), (digits_53 _ Hb2).
  assert (He' : Z.min (fexp Float64.prec Float64.emax (53 + e1 - (53 + e2)))
                      (e1 - e2) = e1 - e2 - 53).
  { unfold fexp, emin, Float64.prec, Float64.emax. lia. }
  rewrite He'.
  replace (e1 - e2 - (e1 - e2 - 53)) with 53 by lia.
  rewrite Z.shiftl_mul_pow2 by lia.
  pose proof (Z_div_mod (Zpos m1 * 2 ^ 53) (Zpos m2) ltac:(lia)) as Hdiv.
  destruct (Z.div_eucl (Zpos m1 * 2 ^ 53) (Zpos m2)) as [q r].
  destruct Hdiv as (Hq & Hr). cbn [xorb].
  set (E := e1 - e2 - 53).
  assert (HE : E <= 0) by (unfold E; lia).
  pose proof (pow2_pos (- E) ltac:(lia)) as HpE.
  assert (Hpow : 2 ^ (- e1) * 2 ^ 53 = 2 ^ (- e2) * 2 ^ (- E)).
  { rewrite <- !Z.pow_add_r by lia. f_equal. unfold E. lia. }
  assert (Hlow2 : 2 ^ (- e2) <= Zpos m2).
  { assert (2 ^ (- e2) <= 2 ^ 52) by (apply Z.pow_le_mono_r; lia). lia. }
  assert (Hq0 : 0 <= q) by nia.
  assert (Hup : q <= X * 2 ^ (- E)).
  { assert (q * 2 ^ (- e2) <= X * 2 ^ (- E) * 2 ^ (- e2)) by nia. nia. }
  apply round_within; try assumption; try lia.
  - split; [| exact Hup].
    destruct Hlo as [-> | (-> & Hle)]; [lia |].
    rewrite Z.mul_1_l.
    assert (2 ^ (- E) * Zpos m2 <= Zpos m1 * 2 ^ 53) by nia.
    nia.
  - destruct (Z.eq_dec q (X * 2 ^ (- E))) as [Heq | Hne]; [left | right; lia].
    assert (r = 0) by nia. subst r. apply new_location_exact.
Qed.

Lemma within_weaken (lo hi top top' : Z) (x : float) :
  top <= top' -> within lo hi top x -> within lo hi top' x.
Proof.
  intros Ht. destruct x as [s | s | | [|] m e]; simpl; auto.
  intros (He & Hm). split; [lia | exact Hm].
Qed.

Lemma of_Z_canonical (p : positive) :
  Zpos p < 2 ^ 53 ->
  exists m e, Float64.of_Z (Zpos p) = S754_finite false m e /\
              -52 <= e <= 0 /\ Zpos m = Zpos p * 2 ^ (- e) /\
              2 ^ 52 <= Zpos m < 2 ^ 53.
Proof.
  intros Hp.
  destruct (of_Z_small p Hp) as (m & e & Heq & He & Hm & Hlow).
  pose proof (of_Z_shaped p) as Hs. rewrite Heq in Hs. destruct Hs as [_ Hup].
  exists m, e. repeat split; try assumption.
  pose proof (pow2_pos (- e) ltac:(lia)) as Hpe.
  assert (Hlt : 2 ^ (- e) < 2 ^ 53) by nia.
  apply Z.pow_lt_mono_r_iff in Hlt; lia.
Qed.

(** The share of the canvas an image may take is at least one when the
    image is not larger than the canvas. *)
Lemma ratio_within (c w : Z) :
  1 <= w <= c -> c < 2 ^ 53 ->
  within 1 c 0 (Float64.div (Float64.of_Z c) (Float64.of_Z w)).
Proof.
  intros Hw Hc.
  destruct c as [| pc | pc]; try lia.
  destruct w as [| pw | pw]; try lia.
  destruct (of_Z_canonical pc Hc) as (mc & ec & -> & Hec & Hmc & Hbc).
  destruct (of_Z_canonical pw ltac:(lia)) as (mw & ew & -> & Hew & Hmw & Hbw).
  apply (within_weaken 1 (Zpos pc) (Z.max (ec - ew - 53) (53 - 53))); [lia |].
  apply div_within; try assumption; try lia.
  right. split; [reflexivity |].
  pose proof (pow2_pos (- ew) ltac:(lia)). nia.
Qed.

Lemma one_within : within 1 1 0 (Float64.of_Z 1).
Proof.
  rewrite one_is. unfold within. split; [lia |].
  assert (H : 2 ^ (- -52) = 4503599627370496) by (vm_compute; reflexivity).
  rewrite H. lia.
Qed.

Lemma within_exact (hi : Z) (s : float) :
  within 1 hi 0 s -> at_most 1 s -> within 1 1 0 s.
Proof.
  destruct s as [z | z | | [|] m e]; simpl; auto.
  intros (He & Hl & _) (_ & Hu). split; [exact He | split; assumption].
Qed.

(** An image that fits the canvas, the margin of twenty pixels left out,
    is not scaled: the scale is exactly one. *)
Lemma display_scale_one (winfo_width winfo_height h w : Z) :
  winfo_width < 2 ^ 53 -> winfo_height < 2 ^ 53 ->
  1 <= w <= Z.max winfo_width 300 - 20 ->
  1 <= h <= Z.max winfo_height 200 - 20 ->
  within 1 1 0 (display_scale winfo_width winfo_height h w).
Proof.
  intros Hcw Hch Hw Hh.
  assert (H300 : 300 < 2 ^ 53) by reflexivity.
  assert (H200 : 200 < 2 ^ 53) by reflexivity.
  assert (Hone : at_most 1 (display_scale winfo_width winfo_height h w)).
  { apply display_scale_at_most_one; lia. }
  revert Hone. unfold display_scale.
  set (a := Float64.div (Float64.of_Z (Z.max winfo_width 300 - 20)) (Float64.of_Z w)).
  set (b := Float64.div (Float64.of_Z (Z.max winfo_height 200 - 20)) (Float64.of_Z h)).
  assert (Ha : within 1 (Z.max winfo_width 300 - 20) 0 a)
    by (apply ratio_within; lia).
  assert (Hb : within 1 (Z.max winfo_height 200 - 20) 0 b)
    by (apply ratio_within; lia).
  destruct (min3_candidates a b (Float64.of_Z 1)) as [-> | [-> | ->]]; intros Hone.
  - exact (within_exact _ _ Ha Hone).
  - exact (within_exact _ _ Hb Hone).
  - exact one_within.
Qed.

(** The product of an integer and the scale one truncates to the
    integer. *)
Lemma mul_one_exact (w : Z) (s : float) :
  1 <= w < 2 ^ 53 -> within 1 1 0 s ->
  Float64.trunc (Float64.mul (Float64.of_Z w) s) = Some w.
Proof.
  intros Hw Hs.
  destruct w as [| pw | pw]; try lia.
  destruct (of_Z_canonical pw (proj2 Hw)) as (mw & ew & -> & Hew & Hmw & Hbw).
  destruct s as [z | z | | [|] ms es]; unfold within in Hs;
    try contradiction; try lia.
  destruct Hs as (Hes & Hms). rewrite Z.mul_1_l in Hms.
  unfold Float64.mul, SFmul. change (xorb false false) with false.
  pose proof (pow2_pos (- ew) ltac:(lia)) as Hpw.
  pose proof (pow2_pos (- es) ltac:(lia)) as Hps.
  assert (Hprod : Zpos (mw * ms) = Zpos pw * 2 ^ (- (ew + es))).
  { replace (- (ew + es)) with (- ew + - es) by lia.
    rewrite Z.pow_add_r by lia. rewrite Pos2Z.inj_mul. nia. }
  pose proof (round_within (Zpos pw) (Zpos pw) 53 (Zpos (mw * ms)) (ew + es)
                loc_Exact ltac:(lia) ltac:(lia) (proj2 Hw) ltac:(lia)
                ltac:(lia) (or_introl eq_refl)) as Hr.
  destruct (binary_round_aux Float64.prec Float64.emax false (Zpos (mw * ms))
              (ew + es) loc_Exact) as [z | z | | [|] m e];
    unfold within in Hr; try contradiction; try lia.
  destruct Hr as (He & Hm).
  assert (Hm' : Zpos m = Zpos pw * 2 ^ (- e)) by lia.
  unfold Float64.trunc. f_equal.
  destruct e as [| p | p]; [| lia |].
  - rewrite Z.shiftl_0_r. change (- 0) with 0 in Hm'.
    rewrite Z.pow_0_r in Hm'. lia.
  - rewrite Z.shiftr_div_pow2 by lia.
    change (- Zneg p) with (Zpos p) in Hm'. rewrite Hm'.
    apply Z.div_mul. pose proof (pow2_pos (Zpos p) ltac:(lia)). lia.
Qed.

(** *** Division never brightens *)

Lemma c255_is : Float64.of_Z 255 = S754_finite false 8972014882652160 (-45).
Proof. vm_compute. reflexivity. Qed.

(** A float that Python can hold and that passes [1.0 <= v <= 10.0] has
    a full mantissa and an exponent between -52 and -49. *)
Lemma valid_in_range (v : float) :
  valid_binary Float64.prec Float64.emax v = true ->
  division_in_range v = true ->
  exists m e, v = S754_finite false m e /\ -52 <= e <= 0 /\
              2 ^ 52 <= Zpos m < 2 ^ 53.
Proof.
  intros Hv Hr.
  destruct (division_in_range_finite v Hr) as (m & e & ->).
  exists m, e. split; [reflexivity |].
  unfold division_in_range in Hr. apply andb_prop in Hr. destruct Hr as [H1 H10].
  assert (Hlo : -52 <= e).
  { revert H1. rewrite one_is. unfold Float64.leb, SFleb, SFcompare.
    destruct (Z.compare_spec (-52) e); intros; lia || discriminate. }
  assert (Hhi : e <= -49).
  { revert H10. rewrite ten_is. unfold Float64.leb, SFleb, SFcompare.
    destruct (Z.compare_spec e (-49)); intros; lia || discriminate. }
  split; [lia |].
  unfold valid_binary, bounded, canonical_mantissa in Hv.
  apply andb_prop in Hv. destruct Hv as [Hc _]. apply Z.eqb_eq in Hc.
  assert (Hd : Zdigits2 (Zpos m) = 53).
  { change (Zdigits2 (Zpos m)) with (Zpos (digits2_pos m)).
    revert Hc. unfold fexp, emin, Float64.prec, Float64.emax. lia. }
  split.
  - apply (Zdigits2_lower (Zpos m) 53); [lia | exact Hd].
  - rewrite <- Hd at 1. apply Zdigits2_upper. lia.
Qed.

Lemma within_not_above_255 (x : Z) (g : float) :
  x <= 255 -> within 0 x (-45) g -> Float64.ltb (Float64.of_Z 255) g = false.
Proof.
  intros Hx. rewrite c255_is. unfold Float64.ltb, SFltb, SFcompare.
  destruct g as [s | s | | [|] m e]; unfold within; try contradiction;
    try reflexivity.
  intros (He & _ & Hm).
  destruct (Z.compare_spec (-45) e) as [Heq | Hlt | Hgt]; try reflexivity; try lia.
  subst e. rewrite Pos.compare_cont_spec. unfold Pos.switch_Eq.
  change (8972014882652160 ?= m)%positive
    with (Zpos 8972014882652160 ?= Zpos m).
  assert (H45 : 2 ^ (- -45) = 35184372088832) by (vm_compute; reflexivity).
  rewrite H45 in Hm.
  destruct (Z.compare_spec (Zpos 8972014882652160) (Zpos m)); try reflexivity.
  exfalso. nia.
Qed.

(** Dividing an 8-bit sample by a number between 1.0 and 10.0 gives a
    sample that is not larger. *)
Lemma divide_sample_not_above (v : float) (x : Z) :
  valid_binary Float64.prec Float64.emax v = true ->
  division_in_range v = true -> np.is_uint8 x ->
  0 <= np.divide_sample v x <= x.
Proof.
  intros Hv Hr Hx.
  destruct (valid_in_range v Hv Hr) as (mv & ev & -> & Hev & Hbv).
  unfold np.is_uint8 in Hx.
  destruct x as [| p | p]; [vm_compute; split; discriminate | | lia].
  assert (Hp : Zpos p < 2 ^ 8) by (change (2 ^ 8) with 256; lia).
  assert (Hp53 : Zpos p < 2 ^ 53).
  { assert (2 ^ 8 <= 2 ^ 53) by (apply Z.pow_le_mono_r; lia). lia. }
  destruct (of_Z_canonical p Hp53) as (mx & ex & Hox & Hex & Hmx & Hbx).
  assert (Hex45 : ex <= -45).
  { pose proof (pow2_pos (- ex) ltac:(lia)) as Hpe.
    assert (H844 : 2 ^ 52 = 2 ^ 8 * 2 ^ 44) by (rewrite <- Z.pow_add_r by lia; reflexivity).
    assert (Hlt : 2 ^ 44 < 2 ^ (- ex)).
    { pose proof (pow2_pos 44 ltac:(lia)). pose proof (pow2_pos 8 ltac:(lia)). nia. }
    apply Z.pow_lt_mono_r_iff in Hlt; lia. }
  assert (Hf : within 0 (Zpos p) (-45)
                      (Float64.div (Float64.of_Z (Zpos p)) (S754_finite false mv ev))).
  { rewrite Hox.
    apply (within_weaken 0 (Zpos p) (Z.max (ex - ev - 53) (8 - 53))); [lia |].
    apply div_within; try assumption; try lia. }
  unfold np.divide_sample, np.clip.
  set (f := Float64.div (Float64.of_Z (Zpos p)) (S754_finite false mv ev)) in *.
  assert (Hg : within 0 (Zpos p) (-45) (np.maximum f (Float64.of_Z 0))).
  { unfold np.maximum.
    assert (Hn : Float64.is_nan f = false).
    { destruct f as [s | s | | [|] m e]; try reflexivity; contradiction. }
    rewrite Hn. change (Float64.is_nan (Float64.of_Z 0)) with false. cbv iota.
    destruct (Float64.ltb f (Float64.of_Z 0)); [reflexivity | exact Hf]. }
  set (g := np.maximum f (Float64.of_Z 0)) in *.
  assert (Hmin : np.minimum g (Float64.of_Z 255) = g).
  { unfold np.minimum.
    assert (Hn : Float64.is_nan g = false).
    { destruct g as [s | s | | [|] m e]; try reflexivity; contradiction. }
    rewrite Hn. rewrite c255_is at 1. cbv iota. unfold Float64.is_nan at 1.
    rewrite (within_not_above_255 (Zpos p) g ltac:(lia) Hg). reflexivity. }
  rewrite Hmin.
  destruct (trunc_at_most (Zpos p) g ltac:(lia)
              (within_at_most 0 (Zpos p) (-45) g ltac:(lia) Hg)) as (z & Hz & Hzr).
  unfold np.astype_uint8. rewrite Hz. rewrite Z.mod_small; lia.
Qed.

(** *** The rounded quotient and the exact one *)










(* ================================================================== *)
(** ** Facts about the callbacks *)
(* ================================================================== *)

Lemma same_inputs_refl (s : App) : same_inputs s s.
Proof. repeat split. Qed.

Lemma same_inputs_trans (s1 s2 s3 : App) :
  same_inputs s1 s2 -> same_inputs s2 s3 -> same_inputs s1 s3.
Proof.
  unfold same_inputs; intros (-> & -> & -> & ->) (-> & -> & -> & ->).
  repeat split.
Qed.

Lemma same_inputs_with_processed (p : option ndarray) (s : App) :
  same_inputs (with_processed p s) s.
Proof. repeat split. Qed.

(** *** Loading *)

(** A cancelled dialog does nothing at all. *)
Lemma load_image_cancelled (file : option cv2.stored) (self : App) :
  load_image EmptyString file self = (inr tt, self, []).
Proof. reflexivity. Qed.

(** An unreadable file: [imread] has already been assigned to
    [self.original_image] when [cvtColor] raises. *)
Lemma load_image_unreadable (file_path : string) (self : App) :
  file_path <> EmptyString ->
  load_image file_path None self
  = (inr tt,
     {| original_image := None;
        processed_image := processed_image self;
        image_path := image_path self;
        threshold_var := threshold_var self;
        division_var := division_var self |},
     [showerror "Failed to load image"]).
Proof.
  intros H. apply String.eqb_neq in H.
  unfold load_image. rewrite H. reflexivity.
Qed.

Lemma loaded_Color (file : cv2.stored) : exists rows, loaded file = Color rows.
Proof. destruct file; eexists; reflexivity. Qed.

Lemma load_image_readable (file_path : string) (file : cv2.stored) (self : App) :
  file_path <> EmptyString ->
  load_image file_path (Some file) self
  = (inr tt,
     {| original_image := Some (loaded file);
        processed_image := Some (np.copy (loaded file));
        image_path := Some file_path;
        threshold_var := threshold_var self;
        division_var := division_var self |},
     [display (loaded file) original_canvas;
      display (np.copy (loaded file)) processed_canvas;
      info_config; status_set "Loaded"; notebook_select 1]).
Proof.
  intros H. apply String.eqb_neq in H.
  unfold load_image. rewrite H.
  destruct file as [rows | rows]; unfold_method; cbn.
  - rewrite map_map.
    erewrite map_ext; [reflexivity |].
    intros row; rewrite map_map; reflexivity.
  - reflexivity.
Qed.

Section Facts.

Context {conv : Convolutions}.

(** No transform touches the original buffer, the path or the two Tk
    variables. *)
Lemma apply_same_inputs (t : transform) (self : App) :
  same_inputs (state_of (apply t self)) self.
Proof.
  destruct t; unfold_method; branches self;
    repeat split; cbn; congruence.
Qed.

Lemma after_all_snoc (cs : list command) (c : command) (self : App) :
  after_all (cs ++ [c]) self = after c (after_all cs self).
Proof. unfold after_all. rewrite fold_left_app. reflexivity. Qed.

Lemma after_all_same_inputs (ts : list transform) (self : App) :
  same_inputs (after_all (map Apply ts) self) self.
Proof.
  induction ts as [| t ts IH] using rev_ind.
  - apply same_inputs_refl.
  - rewrite map_app. simpl map. rewrite after_all_snoc.
    eapply same_inputs_trans; [| exact IH].
    apply apply_same_inputs.
Qed.

(** A transform other than the histogram that ran to its end without a
    report has written a buffer computed from the original and the Tk
    variables alone. *)
Lemma apply_from_original (t : transform) (s1 s2 : App) :
  t <> Histogram ->
  same_inputs s1 s2 ->
  original_image s1 <> None ->
  reports_error (apply t s1) = false ->
  value_of (apply t s1) = inr tt ->
  state_of (apply t s1) = state_of (apply t s2).
Proof.
  intros Ht (Ho & Hp & Hth & Hd) Hne.
  destruct s1 as [o1 p1 i1 t1 d1], s2 as [o2 p2 i2 t2 d2].
  simpl in Ho, Hp, Hth, Hd, Hne; subst.
  destruct o2 as [[rows | rows] |]; [| | congruence];
    (destruct d2 as [text | v]; [| destruct (division_in_range v) eqn:Er]);
    destruct t; try congruence; clear Ht;
    unfold_method; cbn; rewrite ?Er; cbn; congruence.
Qed.


(** *** Reports and the state *)

Lemma reset_image_original (self : App) :
  original_image (state_of (reset_image self)) = original_image self.
Proof. unfold_method; branches self; congruence. Qed.

Lemma save_image_keeps_state (file_path : string) (write : exn + bool)
      (self : App) :
  state_of (save_image file_path write self) = self.
Proof.
  unfold_method.
  destruct (processed_image self) as [[rows | rows] |]; cbn; try reflexivity;
    destruct (String.eqb file_path EmptyString); cbn; try reflexivity;
    destruct write as [e | b]; reflexivity.
Qed.

(** Except for a load that cannot read its file, a callback that opens a
    warning or error box has changed nothing. *)
Lemma report_keeps_state (c : command) (self : App) :
  (forall file_path, c <> Load file_path None) ->
  reports_error (run c self) = true ->
  state_of (run c self) = self.
Proof.
  intros Hc. destruct c as [file_path file | file_path write | | t | text].
  - destruct (String.eqb file_path EmptyString) eqn:E.
    + apply String.eqb_eq in E; subst. intros H; cbv in H; discriminate.
    + apply String.eqb_neq in E. destruct file as [file |].
      * simpl run. rewrite (load_image_readable _ _ _ E).
        intros H; cbv in H; discriminate.
      * contradiction (Hc file_path); reflexivity.
  - intros _. apply save_image_keeps_state.
  - unfold_method; branches self; solve [discriminate | reflexivity].
  - destruct t; unfold_method; branches self;
      solve [discriminate | reflexivity].
  - intros H; cbv in H; discriminate.
Qed.

(** *** The channel count of the original *)

Lemma after_original_in_color (c : command) (self : App) :
  original_in_color self -> original_in_color (after c self).
Proof.
  intros H. destruct c as [file_path file | file_path write | | t | text].
  - destruct (String.eqb file_path EmptyString) eqn:E.
    + apply String.eqb_eq in E; subst. exact H.
    + apply String.eqb_neq in E. unfold after; simpl run.
      destruct file as [file |].
      * rewrite (load_image_readable _ _ _ E). intros a Ha.
        injection Ha as <-. apply loaded_Color.
      * rewrite (load_image_unreadable _ _ E). intros a Ha. discriminate.
  - unfold after; simpl run. rewrite save_image_keeps_state. exact H.
  - intros a Ha. apply H. rewrite <- Ha.
    unfold after; simpl run. symmetry. apply reset_image_original.
  - intros a Ha. apply H.
    destruct (apply_same_inputs t self) as (Ho & _).
    unfold after in Ha; simpl run in Ha. congruence.
  - exact H.
Qed.

Lemma reachable_original_in_color (self : App) :
  reachable self -> original_in_color self.
Proof.
  induction 1 as [| c self _ IH].
  - intros a Ha. discriminate.
  - apply after_original_in_color; assumption.
Qed.

End Facts.

(* ================================================================== *)
(** ** Loading and its failure *)
(* ================================================================== *)

(** C1. A load that cannot read its file reports the failure, yet the
    session is not what it was: the original buffer is gone while the
    processed buffer of the previous image stays. *)
Theorem failed_load_drops_original :
  let r := load_image "b.png" None one_pixel_session in
  original_image one_pixel_session = Some (Color [[(30, 20, 10)]]) /\
  reports_error r = true /\
  original_image (state_of r) = None /\
  processed_image (state_of r) = Some (Color [[(30, 20, 10)]]) /\
  state_of r <> one_pixel_session.
Proof.
  cbv zeta. repeat split; try reflexivity.
  intros H. apply (f_equal original_image) in H. discriminate H.
Qed.

(** C4, as the claim has it, fails: a division factor typed and applied
    before a second load is still there after it. *)
Lemma load_keeps_division_factor :
  let s1 := state_of (set_division_var (Numeral (Float64.of_Z 5)) one_pixel_session) in
  let s2 := state_of (apply_division s1) in
  let r := load_image "b.png" (Some (cv2.StoredGray [[7]])) s2 in
  reports_error r = false /\
  original_image (state_of r) = Some (Color [[(7, 7, 7)]]) /\
  division_var (state_of r) = Numeral (Float64.of_Z 5) /\
  division_var (state_of r) <> division_var setup_variables.
Proof.
  cbv zeta. repeat split; try reflexivity.
  vm_compute. discriminate.
Qed.

(** C4, amended.  A load that succeeds makes the decoded file, in three
    channels and RGB order, the original buffer, makes a copy of it the
    processed buffer, and leaves both parameters as they were. *)
Theorem load_sets_buffers_keeps_parameters
        (file_path : string) (file : cv2.stored) (self : App) :
  file_path <> EmptyString ->
  let r := load_image file_path (Some file) self in
  reports_error r = false /\
  original_image (state_of r) = Some (loaded file) /\
  loaded file = Color (rgb_of_file file) /\
  processed_image (state_of r) = Some (np.copy (loaded file)) /\
  processed_image (state_of r) = original_image (state_of r) /\
  threshold_var (state_of r) = threshold_var self /\
  division_var (state_of r) = division_var self.
Proof.
  intros H. cbv zeta. rewrite (load_image_readable _ _ _ H).
  repeat split. apply loaded_rgb.
Qed.

Lemma load_sets_buffers_keeps_parameters_witness :
  let r := load_image "b.png" (Some (cv2.StoredGray [[7]])) one_pixel_session in
  reports_error r = false /\
  original_image (state_of r) = Some (loaded (cv2.StoredGray [[7]])) /\
  loaded (cv2.StoredGray [[7]]) = Color (rgb_of_file (cv2.StoredGray [[7]])) /\
  processed_image (state_of r) = Some (np.copy (loaded (cv2.StoredGray [[7]]))) /\
  processed_image (state_of r) = original_image (state_of r) /\
  threshold_var (state_of r) = threshold_var one_pixel_session /\
  division_var (state_of r) = division_var one_pixel_session.
Proof.
  apply (load_sets_buffers_keeps_parameters "b.png" (cv2.StoredGray [[7]])
                                            one_pixel_session).
  discriminate.
Defined.

(** [reset_image] is the callback that returns both parameters to their
    defaults. *)
Lemma reset_image_defaults (self : App) (a : ndarray) :
  original_image self = Some a ->
  state_of (reset_image self)
  = {| original_image := Some a;
       processed_image := Some (np.copy a);
       image_path := image_path self;
       threshold_var := 128;
       division_var := Numeral (Float64.of_Z 2) |}.
Proof.
  intros H. unfold_method. repeat (cbn; rewrite ?H). reflexivity.
Qed.

(* ================================================================== *)
(** ** Binary threshold *)
(* ================================================================== *)




(* ================================================================== *)
(** ** Logical NOT *)
(* ================================================================== *)

Lemma bitwise_not_involutive (a : ndarray) :
  np.all_uint8 a -> cv2.bitwise_not (cv2.bitwise_not a) = a.
Proof.
  intros H. unfold cv2.bitwise_not.
  rewrite map_samples_compose. apply map_samples_id_on.
  revert H. apply Forall_impl. intros x Hx.
  apply lnot_uint8_involutive; assumption.
Qed.

Lemma logical_not_processed (self : App) (a : ndarray) :
  original_image self = Some a ->
  processed_image (state_of (logical_not self)) = Some (cv2.bitwise_not a).
Proof.
  intros H. unfold_method. repeat (cbn; rewrite ?H). reflexivity.
Qed.

(** C7. Logical NOT applied to the result of logical NOT gives back the
    samples it started from: when the operation turns an image [a] into
    [b], the operation on [b] yields [a] again. *)
Theorem logical_not_twice (s1 s2 : App) (a b : ndarray) :
  np.all_uint8 a ->
  original_image s1 = Some a ->
  processed_image (state_of (logical_not s1)) = Some b ->
  original_image s2 = Some b ->
  processed_image (state_of (logical_not s2)) = Some a.
Proof.
  intros Ha H1 Hb H2.
  rewrite (logical_not_processed s1 a H1) in Hb. injection Hb as <-.
  rewrite (logical_not_processed s2 _ H2).
  rewrite (bitwise_not_involutive a Ha). reflexivity.
Qed.

Lemma logical_not_twice_witness :
  processed_image
    (state_of (logical_not
                 (state_of (load_image "n.png"
                                       (Some (cv2.StoredColor [[(245, 235, 225)]]))
                                       setup_variables))))
  = Some (Color [[(30, 20, 10)]]).
Proof.
  apply (logical_not_twice one_pixel_session _ (Color [[(30, 20, 10)]])
                           (Color [[(225, 235, 245)]])).
  - unfold np.all_uint8; simpl. repeat constructor; discriminate.
  - reflexivity.
  - reflexivity.
  - reflexivity.
Defined.

(* ================================================================== *)
(** ** Division *)
(* ================================================================== *)

(** The scenario of the specification: every sample 200, divided by 2.0. *)
Example divide_200_by_2 :
  np.map_samples (np.divide_sample (Float64.of_Z 2)) (Gray [[200; 200]; [200; 200]])
  = Gray [[100; 100]; [100; 100]].
Proof. reflexivity. Qed.

(** The quotient is the rounded binary64 one: 10 divided by the float
    nearest to 10/3 is 3.0 exactly, and the sample is 3. *)
Example divide_rounds_like_float64 :
  np.divide_sample (Float64.div (Float64.of_Z 10) (Float64.of_Z 3)) 10 = 3.
Proof. reflexivity. Qed.

Lemma divide_sample_uint8 (value : float) (x : Z) :
  np.is_uint8 (np.divide_sample value x).
Proof.
  unfold np.divide_sample, np.astype_uint8, np.is_uint8.
  destruct (Float64.trunc _) as [z |]; [| lia].
  pose proof (Z.mod_pos_bound z 256 eq_refl). lia.
Qed.




(** Both sides of the range test, run: 2.0 is applied, 15.0 is refused
    and the processed buffer stays. *)
Example apply_division_two_and_fifteen :
  let typed v := state_of (set_division_var (Numeral (Float64.of_Z v))
                                            one_pixel_session) in
  division_in_range (Float64.of_Z 2) = true /\
  processed_image (state_of (apply_division (typed 2)))
  = Some (Color [[(15, 10, 5)]]) /\
  division_in_range (Float64.of_Z 15) = false /\
  apply_division (typed 15)
  = (inr tt, typed 15,
     [showerror "Please enter a value between 1.0 and 10.0"]).
Proof. cbv zeta. repeat split; vm_compute; reflexivity. Qed.

(** Text that is no number is refused in the same way. *)
Lemma apply_division_garbage (self : App) (a : ndarray) (text : string) :
  original_image self = Some a ->
  division_var self = Garbage text ->
  apply_division self
  = (inr tt, self,
     [showerror "Please enter a valid number between 1.0 and 10.0"]).
Proof.
  intros Ho Hd. unfold_method. repeat (cbn; rewrite ?Ho, ?Hd). reflexivity.
Qed.

(* ================================================================== *)
(** ** Transforms and the original buffer *)
(* ================================================================== *)

(** C2, as the claim has it, fails for the histogram: after a logical
    NOT the curves drawn are those of the inverted image, not of the
    original, and the histogram as last transform leaves the processed
    buffer of the transform before it. *)
Lemma histogram_reads_processed :
  let s := one_pixel_session in
  let s' := state_of (logical_not s) in
  original_image s' = Some (Color [[(30, 20, 10)]]) /\
  processed_image s' = Some (Color [[(225, 235, 245)]]) /\
  events_of (show_histogram s')
  = [histogram_draw (histogram_curves (Color [[(225, 235, 245)]]));
     notebook_select 2; status_set "Histogram displayed"] /\
  histogram_curves (Color [[(225, 235, 245)]])
  <> histogram_curves (Color [[(30, 20, 10)]]) /\
  processed_image (state_of (show_histogram s'))
  <> processed_image (state_of (show_histogram s)).
Proof.
  cbv zeta. repeat split; try reflexivity.
  - vm_compute. discriminate.
  - vm_compute. discriminate.
Qed.

Section Claims.

Context {conv : Convolutions}.

(** C5. A transform invoked while no image is loaded raises nothing,
    shows the warning, and leaves every buffer and parameter as it was;
    the original buffer is still absent afterwards. *)
Theorem transform_without_image (t : transform) (self : App) :
  original_image self = None ->
  let r := run (Apply t) self in
  value_of r = inr tt /\
  events_of r = [showwarning "Please load an image first!"] /\
  reports_error r = true /\
  state_of r = self /\
  original_image (state_of r) = None.
Proof.
  intros H. cbv zeta.
  assert (E : run (Apply t) self
              = (inr tt, self, [showwarning "Please load an image first!"])).
  { destruct t; unfold_method; rewrite H; reflexivity. }
  rewrite E. repeat split. exact H.
Qed.

(** C2, amended.  With an image loaded, every transform other than the
    histogram that completes computes the processed buffer from the
    original buffer and the parameters, whatever the processed buffer
    was, so a sequence of transforms ending in it leaves the state that
    it alone leaves; the histogram draws the processed buffer when there
    is one, the original otherwise, and replaces nothing. *)
Theorem transforms_read_original
        (ts : list transform) (t : transform) (self : App) (a : ndarray) :
  original_image self = Some a ->
  reports_error (run (Apply t) self) = false ->
  value_of (run (Apply t) self) = inr tt ->
  match t with
  | Histogram =>
      run (Apply t) self
      = (inr tt, self,
         [histogram_draw
            (histogram_curves match processed_image self with
                              | Some p => p
                              | None => a
                              end);
          notebook_select 2; status_set "Histogram displayed"])
  | _ =>
      (forall p, after (Apply t) (with_processed p self) = after (Apply t) self) /\
      after_all (map Apply (ts ++ [t])) self = after (Apply t) self
  end.
Proof.
  intros Ho Hr Hv.
  assert (Hother :
            t <> Histogram ->
            (forall p, after (Apply t) (with_processed p self)
                       = after (Apply t) self) /\
            after_all (map Apply (ts ++ [t])) self = after (Apply t) self).
  { intros Ht. split.
    - intros p. symmetry. apply apply_from_original; try assumption.
      + destruct (same_inputs_with_processed p self) as (H1 & H2 & H3 & H4).
        repeat split; symmetry; assumption.
      + congruence.
    - rewrite map_app. simpl map. rewrite after_all_snoc.
      symmetry. apply apply_from_original; try assumption.
      + destruct (after_all_same_inputs ts self) as (H1 & H2 & H3 & H4).
        repeat split; symmetry; assumption.
      + congruence. }
  destruct t; try (apply Hother; discriminate).
  simpl run. unfold_method.
  destruct (processed_image self) eqn:Ep; repeat (cbn; rewrite ?Ho, ?Ep);
    reflexivity.
Qed.

(** C10. In every state the application can reach, a load that succeeds
    leaves a 3-channel original buffer in R, G, B order, also when the
    file has one channel: a colour file, decoded as (blue, green, red),
    gives the pixels (red, green, blue), and a one-channel file gives its
    level three times.  Whenever an original buffer is present it has
    three dimensions: the callbacks never see a 1-channel original, and
    the binary threshold and the erosions take their 3-channel branch. *)
Theorem original_always_three_channels (self : App) :
  reachable self ->
  (forall file_path file,
      file_path <> EmptyString ->
      exists rows,
        original_image (after (Load file_path (Some file)) self)
        = Some (Color rows) /\
        rows = rgb_of_file file) /\
  (forall a, original_image self = Some a ->
             np.ndim a = 3 /\ (np.ndim a =? 3) = true).
Proof.
  intros Hr. split.
  - intros file_path file Hp.
    exists (rgb_of_file file). split; [| reflexivity].
    unfold after; simpl run.
    rewrite (load_image_readable _ _ _ Hp). cbn. rewrite loaded_rgb. reflexivity.
  - intros a Ha.
    destruct (reachable_original_in_color self Hr a Ha) as [rows ->].
    split; reflexivity.
Qed.


End Claims.

Lemma transform_without_image_witness :
  let r := run (conv := no_convolution) (Apply Blur) setup_variables in
  value_of r = inr tt /\
  events_of r = [showwarning "Please load an image first!"] /\
  reports_error r = true /\
  state_of r = setup_variables /\
  original_image (state_of r) = None.
Proof.
  apply (transform_without_image (conv := no_convolution) Blur setup_variables).
  reflexivity.
Defined.

Lemma transforms_read_original_witness :
  (forall p, after (conv := no_convolution) (Apply LogicalNot)
                   (with_processed p one_pixel_session)
             = after (conv := no_convolution) (Apply LogicalNot) one_pixel_session) /\
  after_all (conv := no_convolution)
            (map Apply ([Grayscale; Histogram; Sharpen] ++ [LogicalNot]))
            one_pixel_session
  = after (conv := no_convolution) (Apply LogicalNot) one_pixel_session.
Proof.
  apply (transforms_read_original (conv := no_convolution)
                                  [Grayscale; Histogram; Sharpen] LogicalNot
                                  one_pixel_session (Color [[(30, 20, 10)]]));
    reflexivity.
Defined.

Lemma original_always_three_channels_witness :
  (forall file_path file,
      file_path <> EmptyString ->
      exists rows,
        original_image (after (conv := no_convolution)
                              (Load file_path (Some file)) one_pixel_session)
        = Some (Color rows) /\
        rows = rgb_of_file file) /\
  (forall a, original_image one_pixel_session = Some a ->
             np.ndim a = 3 /\ (np.ndim a =? 3) = true).
Proof.
  apply (original_always_three_channels (conv := no_convolution)
                                        one_pixel_session).
  exact (reachable_after (Load "a.png" (Some one_pixel_file)) setup_variables
                         reachable_start).
Defined.


(** The same image, run: one dark pixel in a corner takes the
    foreground away from every pixel within two columns of it, on both
    rows. *)
Example erosion_square_near_a_dark_pixel :
  let file := cv2.StoredColor [[(250, 250, 250); (250, 250, 250);
                                (250, 250, 250); (10, 10, 10)];
                               [(250, 250, 250); (250, 250, 250);
                                (250, 250, 250); (250, 250, 250)]] in
  let self := state_of (load_image "b.png" (Some file) setup_variables) in
  binarized (rgb_of_file file) = [[255; 255; 255; 0]; [255; 255; 255; 255]] /\
  processed_image (state_of (erosion_square self))
  = Some (Gray [[255; 0; 0; 0]; [255; 0; 0; 0]]).
Proof. cbv zeta. split; vm_compute; reflexivity. Qed.

(* ================================================================== *)
(** ** Rendering *)
(* ================================================================== *)

(** C9, as the claim has it, fails: a 1024 x 1024 image on a 532 x 532
    canvas is scaled by 0.5 to 512 x 512, not by 532/1024. *)
Lemma display_scale_leaves_margin :
  display_scale 532 532 1024 1024 = Float64.div (Float64.of_Z 1) (Float64.of_Z 2) /\
  display_size 532 532 1024 1024 = Some (512, 512) /\
  scale_as_specified 532 532 1024 1024
  = Float64.div (Float64.of_Z 133) (Float64.of_Z 256) /\
  display_scale 532 532 1024 1024 <> scale_as_specified 532 532 1024 1024.
Proof.
  repeat split; try reflexivity.
  vm_compute. discriminate.
Qed.

(** A canvas smaller than 300 x 200 counts as 300 x 200. *)
Example display_scale_small_canvas :
  display_scale 1 1 1000 1000 = display_scale 300 200 1000 1000 /\
  display_size 1 1 1000 1000 = Some (180, 180).
Proof. split; reflexivity. Qed.

(** A dimension that the factor would take to zero is kept at one pixel. *)
Example display_size_thin_image :
  display_size 500 500 1000 1 = Some (1, 480).
Proof. reflexivity. Qed.

(** C9, amended.  The factor is
    min((max(vw, 300) - 20) / w, (max(vh, 200) - 20) / h, 1.0): the canvas
    counts as at least 300 x 200 and 20 pixels of it are left free.  The
    factor is never greater than 1.0, the same factor scales both
    dimensions, each truncated to an integer and kept at least 1, and
    the image is never drawn larger than it is. *)
Theorem display_scale_fits (winfo_width winfo_height h w : Z) :
  1 <= w < 2 ^ 53 -> 1 <= h < 2 ^ 53 ->
  let scale := display_scale winfo_width winfo_height h w in
  scale = Float64.min3
            (Float64.div (Float64.of_Z (Z.max winfo_width 300 - 20)) (Float64.of_Z w))
            (Float64.div (Float64.of_Z (Z.max winfo_height 200 - 20)) (Float64.of_Z h))
            (Float64.of_Z 1) /\
  Float64.ltb (Float64.of_Z 1) scale = false /\
  exists sw sh,
    Float64.trunc (Float64.mul (Float64.of_Z w) scale) = Some sw /\
    Float64.trunc (Float64.mul (Float64.of_Z h) scale) = Some sh /\
    display_size winfo_width winfo_height h w = Some (Z.max sw 1, Z.max sh 1) /\
    1 <= Z.max sw 1 <= w /\
    1 <= Z.max sh 1 <= h.
Proof.
  intros Hw Hh. cbv zeta. split; [reflexivity | split].
  - apply min3_not_above_last. vm_compute. reflexivity.
  - pose proof (display_scale_at_most_one winfo_width winfo_height h w Hw Hh) as Hs.
    destruct (trunc_at_most w _ ltac:(lia)
                (mul_at_most w _ _ Hw (of_Z_at_most w Hw) Hs)) as (sw & Esw & Hsw).
    destruct (trunc_at_most h _ ltac:(lia)
                (mul_at_most h _ _ Hh (of_Z_at_most h Hh) Hs)) as (sh & Esh & Hsh).
    exists sw, sh. unfold display_size. rewrite Esw, Esh.
    repeat split; lia.
Qed.

Lemma display_scale_fits_witness :
  let scale := display_scale 532 532 1024 1024 in
  scale = Float64.min3
            (Float64.div (Float64.of_Z (Z.max 532 300 - 20)) (Float64.of_Z 1024))
            (Float64.div (Float64.of_Z (Z.max 532 200 - 20)) (Float64.of_Z 1024))
            (Float64.of_Z 1) /\
  Float64.ltb (Float64.of_Z 1) scale = false /\
  exists sw sh,
    Float64.trunc (Float64.mul (Float64.of_Z 1024) scale) = Some sw /\
    Float64.trunc (Float64.mul (Float64.of_Z 1024) scale) = Some sh /\
    display_size 532 532 1024 1024 = Some (Z.max sw 1, Z.max sh 1) /\
    1 <= Z.max sw 1 <= 1024 /\
    1 <= Z.max sh 1 <= 1024.
Proof.
  apply (display_scale_fits 532 532 1024 1024); split; reflexivity || discriminate.
Defined.

(* ================================================================== *)
(** ** Further properties of the callbacks *)
(* ================================================================== *)

(** *** Failures, the original buffer and the reachable states *)

Section More.

Context {conv : Convolutions}.

(** X1. A command that opens a warning or error box has either changed
    nothing, or it is a load of an unreadable file and has cleared the
    original buffer and nothing else. *)
Theorem reported_failure_effect (c : command) (self : App) :
  reports_error (run c self) = true ->
  after c self = self \/
  (exists file_path, c = Load file_path None) /\
  after c self = without_original self.
Proof.
  intros H.
  destruct c as [file_path [file |] | file_path write | | t | text];
    try (left; apply report_keeps_state; [discriminate | exact H]).
  right. split; [exists file_path; reflexivity |].
  destruct (String.eqb file_path EmptyString) eqn:E.
  - apply String.eqb_eq in E. subst. cbv in H. discriminate H.
  - apply String.eqb_neq in E. unfold after; simpl run.
    rewrite (load_image_unreadable _ _ E). reflexivity.
Qed.

(** X2. Only a load changes the original buffer: saving, resetting,
    every transform and typing in the division entry leave it alone. *)
Theorem original_changed_by_load_only (c : command) (self : App) :
  (forall file_path file, c <> Load file_path file) ->
  original_image (after c self) = original_image self.
Proof.
  intros Hc. destruct c as [file_path file | file_path write | | t | text].
  - contradiction (Hc file_path file). reflexivity.
  - unfold after; simpl run. rewrite save_image_keeps_state. reflexivity.
  - unfold after; simpl run. apply reset_image_original.
  - destruct (apply_same_inputs t self) as (Ho & _). exact Ho.
  - reflexivity.
Qed.

Lemma apply_processed_present (t : transform) (self : App) :
  processed_image self <> None ->
  processed_image (state_of (apply t self)) <> None.
Proof.
  intros H. destruct t; unfold_method; branches self;
    solve [discriminate | assumption | congruence].
Qed.

Lemma after_session_invariant (c : command) (self : App) :
  session_invariant self -> session_invariant (after c self).
Proof.
  intros (Ht & Hp & Hc).
  split; [| split; [| apply after_original_in_color; exact Hc]].
  - destruct c as [file_path [file |] | file_path write | | t | text].
    + destruct (String.eqb file_path EmptyString) eqn:E.
      * apply String.eqb_eq in E. subst. exact Ht.
      * apply String.eqb_neq in E. unfold after; simpl run.
        rewrite (load_image_readable _ _ _ E). exact Ht.
    + destruct (String.eqb file_path EmptyString) eqn:E.
      * apply String.eqb_eq in E. subst. exact Ht.
      * apply String.eqb_neq in E. unfold after; simpl run.
        rewrite (load_image_unreadable _ _ E). exact Ht.
    + unfold after; simpl run. rewrite save_image_keeps_state. exact Ht.
    + unfold after; simpl run. unfold_method. branches self; congruence.
    + destruct (apply_same_inputs t self) as (_ & _ & Hth & _).
      unfold after; simpl run. congruence.
    + exact Ht.
  - destruct c as [file_path [file |] | file_path write | | t | text].
    + destruct (String.eqb file_path EmptyString) eqn:E.
      * apply String.eqb_eq in E. subst. exact Hp.
      * apply String.eqb_neq in E. unfold after; simpl run.
        rewrite (load_image_readable _ _ _ E). intros _. split; discriminate.
    + destruct (String.eqb file_path EmptyString) eqn:E.
      * apply String.eqb_eq in E. subst. exact Hp.
      * apply String.eqb_neq in E. unfold after; simpl run.
        rewrite (load_image_unreadable _ _ E). intros H. contradiction H. reflexivity.
    + unfold after; simpl run. rewrite save_image_keeps_state. exact Hp.
    + unfold after; simpl run. intros Ho.
      rewrite reset_image_original in Ho. destruct (Hp Ho) as [Hpp Hpath].
      revert Ho Hpp Hpath. unfold_method. branches self; intros; split; congruence.
    + intros Ho. destruct (apply_same_inputs t self) as (Ho' & Hpa & _ & _).
      unfold after in *; simpl run in *.
      rewrite Ho' in Ho. destruct (Hp Ho) as [Hpp Hpath]. split.
      * apply apply_processed_present. exact Hpp.
      * rewrite Hpa. exact Hpath.
    + exact Hp.
Qed.


Lemma reachable_session_invariant (self : App) :
  reachable self -> session_invariant self.
Proof.
  induction 1 as [| c self _ IH].
  - split; [reflexivity | split].
    + intros H. contradiction H. reflexivity.
    + intros a Ha. discriminate Ha.
  - apply after_session_invariant. exact IH.
Qed.

(** X3. In every state the application can reach the threshold is 128,
    and a session that has an original buffer also has a processed
    buffer and a path: whenever a transform is allowed, saving is too,
    and the histogram never has to fall back on the original. *)
Theorem reachable_session (self : App) :
  reachable self ->
  threshold_var self = 128 /\
  (forall a, original_image self = Some a ->
             (exists p, processed_image self = Some p) /\
             (exists path, image_path self = Some path)).
Proof.
  intros Hr. destruct (reachable_session_invariant self Hr) as (Ht & Hp & _).
  split; [exact Ht |]. intros a Ha.
  destruct Hp as [Hpp Hpath]; [congruence |].
  split.
  - destruct (processed_image self) as [p |]; [exists p; reflexivity | congruence].
  - destruct (image_path self) as [p |]; [exists p; reflexivity | congruence].
Qed.

(** X4. In a reachable state no callback lets an exception escape:
    whatever the button, the dialog answer, the file or the outcome of
    the write, the callback returns. *)
Theorem callbacks_never_raise (c : command) (self : App) :
  reachable self -> value_of (run c self) = inr tt.
Proof.
  intros Hr.
  pose proof (reachable_original_in_color self Hr) as Hc.
  destruct c as [file_path [file |] | file_path write | | t | text].
  - destruct (String.eqb file_path EmptyString) eqn:E.
    + apply String.eqb_eq in E. subst. reflexivity.
    + apply String.eqb_neq in E. simpl run.
      rewrite (load_image_readable _ _ _ E). reflexivity.
  - destruct (String.eqb file_path EmptyString) eqn:E.
    + apply String.eqb_eq in E. subst. reflexivity.
    + apply String.eqb_neq in E. simpl run.
      rewrite (load_image_unreadable _ _ E). reflexivity.
  - simpl run. unfold_method.
    destruct (processed_image self) as [[rows | rows] |]; cbn; try reflexivity;
      destruct (String.eqb file_path EmptyString); cbn; try reflexivity;
      destruct write as [e | b]; reflexivity.
  - simpl run. unfold_method. branches self; reflexivity.
  - destruct (original_image self) as [a |] eqn:Ho.
    + destruct (Hc a Ho) as [rows ->].
      destruct t; simpl run; unfold_method;
        (destruct (division_var self) as [text | v] eqn:Ed;
         [| destruct (division_in_range v) eqn:Er]);
        destruct (processed_image self) eqn:Ep;
        repeat (cbn; rewrite ?Ho, ?Ed, ?Er, ?Ep); reflexivity.
    + destruct t; simpl run; unfold_method; rewrite Ho; reflexivity.
  - reflexivity.
Qed.

(** X5. Whatever transforms were run on a loaded image, the reset
    button brings the session to what it is right after loading that
    image with the parameters at 128 and 2.0; without an image it only
    warns and changes nothing. *)
Theorem reset_after_transforms (ts : list transform) (self : App) :
  after_all (map Apply ts ++ [Reset]) self
  = match original_image self with
    | Some a => fresh_session a (image_path self)
    | None => after_all (map Apply ts) self
    end /\
  reports_error (run Reset (after_all (map Apply ts) self))
  = match original_image self with Some _ => false | None => true end.
Proof.
  rewrite after_all_snoc.
  destruct (after_all_same_inputs ts self) as (Ho & Hp & _ & _).
  set (s := after_all (map Apply ts) self) in *.
  split.
  - unfold after; simpl run. unfold fresh_session. unfold_method.
    rewrite <- Ho, <- Hp.
    destruct (original_image s) eqn:Eo; repeat (cbn; rewrite ?Eo); reflexivity.
  - simpl run. unfold_method. rewrite <- Ho.
    destruct (original_image s) eqn:Eo; repeat (cbn; rewrite ?Eo); reflexivity.
Qed.

(** X6. Saving never changes the session and never raises, whatever
    the dialog returns and whatever the write does; it reports a failure
    exactly when there is no processed buffer or the write raises. *)
Theorem save_image_harmless (file_path : string) (write : exn + bool)
        (self : App) :
  state_of (save_image file_path write self) = self /\
  value_of (save_image file_path write self) = inr tt /\
  reports_error (save_image file_path write self)
  = match processed_image self with
    | None => true
    | Some _ =>
        if String.eqb file_path EmptyString then false
        else match write with inl _ => true | inr _ => false end
    end.
Proof.
  split; [apply save_image_keeps_state |].
  unfold_method.
  destruct (processed_image self) as [[rows | rows] |]; cbn; auto;
    destruct (String.eqb file_path EmptyString); cbn; auto;
    destruct write as [e | b]; auto.
Qed.

End More.

Lemma reported_failure_effect_witness :
  after (conv := no_convolution) (Load "a.png" None) one_pixel_session
  = one_pixel_session \/
  (exists file_path, Load "a.png" None = Load file_path None) /\
  after (conv := no_convolution) (Load "a.png" None) one_pixel_session
  = without_original one_pixel_session.
Proof.
  apply (reported_failure_effect (conv := no_convolution)
                                 (Load "a.png" None) one_pixel_session).
  reflexivity.
Defined.

Lemma original_changed_by_load_only_witness :
  original_image (after (conv := no_convolution) (Apply Grayscale) one_pixel_session)
  = original_image one_pixel_session.
Proof.
  apply (original_changed_by_load_only (conv := no_convolution)
                                       (Apply Grayscale) one_pixel_session).
  intros file_path file. discriminate.
Defined.

Lemma reachable_session_witness :
  threshold_var one_pixel_session = 128 /\
  (forall a, original_image one_pixel_session = Some a ->
             (exists p, processed_image one_pixel_session = Some p) /\
             (exists path, image_path one_pixel_session = Some path)).
Proof.
  apply (reachable_session (conv := no_convolution) one_pixel_session).
  exact (reachable_after (Load "a.png" (Some one_pixel_file)) setup_variables
                         reachable_start).
Defined.

Lemma callbacks_never_raise_witness :
  value_of (run (conv := no_convolution) (Apply Grayscale) one_pixel_session)
  = inr tt.
Proof.
  apply (callbacks_never_raise (conv := no_convolution)
                               (Apply Grayscale) one_pixel_session).
  exact (reachable_after (Load "a.png" (Some one_pixel_file)) setup_variables
                         reachable_start).
Defined.

(** *** Files: saving, loading and the validation of the entry *)

Lemma swap_rb_involutive (p : pixel) : cv2.swap_rb (cv2.swap_rb p) = p.
Proof. destruct p as [[c0 c1] c2]. reflexivity. Qed.

Lemma map_map_id {A : Type} (f : A -> A) (rows : list (list A)) :
  (forall x, f (f x) = x) -> map (map f) (map (map f) rows) = rows.
Proof.
  intros H. rewrite map_map. rewrite <- (map_id rows) at 2.
  apply map_ext. intros row. rewrite map_map. rewrite <- (map_id row) at 2.
  apply map_ext. exact H.
Qed.

(** The luminance of a gray pixel is its gray level. *)
Lemma rgb2gray_gray (g : Z) : cv2.rgb2gray (g, g, g) = g.
Proof.
  unfold cv2.rgb2gray. rewrite Z.shiftr_div_pow2 by lia.
  change (2 ^ 15) with 32768.
  symmetry. apply Z.div_unique with (r := 16384); lia.
Qed.

Lemma gray_of_replicated (rows : list (list Z)) :
  map (map cv2.rgb2gray) (map (map (fun g => (g, g, g))) rows) = rows.
Proof.
  rewrite map_map. rewrite <- (map_id rows) at 2.
  apply map_ext. intros row. rewrite map_map. rewrite <- (map_id row) at 2.
  apply map_ext. exact rgb2gray_gray.
Qed.

Lemma convert_grayscale_Color (self : App) (rows : list (list pixel)) :
  original_image self = Some (Color rows) ->
  processed_image (state_of (convert_grayscale self))
  = Some (Gray (map (map cv2.rgb2gray) rows)).
Proof.
  intros H. unfold_method. repeat (cbn; rewrite ?H). reflexivity.
Qed.

(** X7. A one-channel file that is loaded and then converted to
    grayscale comes back sample for sample. *)
Theorem gray_file_round_trip (file_path : string) (rows : list (list Z))
        (self : App) :
  file_path <> EmptyString ->
  processed_image
    (state_of (convert_grayscale
                 (state_of (load_image file_path (Some (cv2.StoredGray rows)) self))))
  = Some (Gray rows).
Proof.
  intros Hf. rewrite (load_image_readable _ _ _ Hf).
  rewrite (convert_grayscale_Color _ (map (map (fun g => (g, g, g))) rows));
    [| reflexivity].
  rewrite gray_of_replicated. reflexivity.
Qed.

(** X8. What is saved to a lossless file and loaded again is the
    processed buffer: a 3-channel buffer comes back as the original
    buffer itself (the channel swap on saving undoes the one on
    loading), a one-channel buffer comes back replicated to three equal
    channels, and the grayscale button then gives it back as it was. *)
Theorem save_load_round_trip (save_path load_path : string) (ok : bool)
        (p : ndarray) (self other : App) :
  processed_image self = Some p ->
  save_path <> EmptyString ->
  load_path <> EmptyString ->
  events_of (save_image save_path (inr ok) self)
  = [imwrite save_path (img_save_of p); status_set "Saved";
     showinfo "Image saved successfully!"] /\
  let again :=
    state_of (load_image load_path (Some (png_contents (img_save_of p))) other) in
  match p with
  | Color _ => original_image again = Some p
  | Gray rows =>
      original_image again = Some (replicated rows) /\
      processed_image (state_of (convert_grayscale again)) = Some p
  end.
Proof.
  intros Hp Hs Hl. split.
  - apply String.eqb_neq in Hs. unfold_method. rewrite Hp. cbn. rewrite Hs.
    destruct p as [rows | rows]; reflexivity.
  - cbv zeta. destruct p as [rows | rows].
    + split.
      * rewrite (load_image_readable _ _ _ Hl). reflexivity.
      * rewrite (load_image_readable _ _ _ Hl).
        rewrite (convert_grayscale_Color _ (map (map (fun g => (g, g, g))) rows));
          [| reflexivity].
        rewrite gray_of_replicated. reflexivity.
    + rewrite (load_image_readable _ _ _ Hl). cbn.
      rewrite (map_map_id cv2.swap_rb rows swap_rb_involutive). reflexivity.
Qed.

Lemma save_load_round_trip_witness :
  let p := Gray [[7; 200]] in
  let self := with_processed (Some p) one_pixel_session in
  events_of (save_image "out.png" (inr true) self)
  = [imwrite "out.png" (img_save_of p); status_set "Saved";
     showinfo "Image saved successfully!"] /\
  let again :=
    state_of (load_image "out.png" (Some (png_contents (img_save_of p)))
                         setup_variables) in
  original_image again = Some (replicated [[7; 200]]) /\
  processed_image (state_of (convert_grayscale again)) = Some p.
Proof.
  apply (save_load_round_trip "out.png" "out.png" true (Gray [[7; 200]])
           (with_processed (Some (Gray [[7; 200]])) one_pixel_session)
           setup_variables).
  - reflexivity.
  - discriminate.
  - discriminate.
Defined.

Lemma gray_file_round_trip_witness :
  processed_image
    (state_of (convert_grayscale
                 (state_of (load_image "g.png" (Some (cv2.StoredGray [[7; 200]]))
                                       setup_variables))))
  = Some (Gray [[7; 200]]).
Proof.
  apply (gray_file_round_trip "g.png" [[7; 200]] setup_variables).
  discriminate.
Defined.

(** X9. The colouring of the division entry agrees with the Apply
    button: with an image loaded, [validate_division_input] returns
    True (and leaves the entry in its normal colour) exactly when
    [apply_division] goes through without an error box; it never
    changes the session. *)
Theorem validation_agrees_with_apply (self : App) (a : ndarray) :
  original_image self = Some a ->
  state_of (validate_division_input self) = self /\
  events_of (validate_division_input self) = [] /\
  exists ok : bool,
    value_of (validate_division_input self)
    = inr (if ok then input_bg else invalid_bg, ok) /\
    reports_error (apply_division self) = negb ok.
Proof.
  intros Ho. unfold validate_division_input.
  destruct (division_var self) as [text | v] eqn:Ed;
    [| destruct (division_in_range v) eqn:Er].
  - repeat split; try (unfold_method; rewrite Ed; reflexivity).
    exists false. split.
    + unfold_method. rewrite Ed. reflexivity.
    + unfold_method. repeat (cbn; rewrite ?Ho, ?Ed). reflexivity.
  - repeat split; try (unfold_method; rewrite Ed; cbn; rewrite Er; reflexivity).
    exists true. split.
    + unfold_method. rewrite Ed. cbn. rewrite Er. reflexivity.
    + unfold_method. repeat (cbn; rewrite ?Ho, ?Ed, ?Er). reflexivity.
  - repeat split; try (unfold_method; rewrite Ed; cbn; rewrite Er; reflexivity).
    exists false. split.
    + unfold_method. rewrite Ed. cbn. rewrite Er. reflexivity.
    + unfold_method. repeat (cbn; rewrite ?Ho, ?Ed, ?Er). reflexivity.
Qed.

Lemma validation_agrees_with_apply_witness :
  state_of (validate_division_input one_pixel_session) = one_pixel_session /\
  events_of (validate_division_input one_pixel_session) = [] /\
  exists ok : bool,
    value_of (validate_division_input one_pixel_session)
    = inr (if ok then input_bg else invalid_bg, ok) /\
    reports_error (apply_division one_pixel_session) = negb ok.
Proof.
  apply (validation_agrees_with_apply one_pixel_session (Color [[(30, 20, 10)]])).
  reflexivity.
Defined.

(** *** The histogram and the division by one *)











(** *** Integers that a float holds exactly *)

Section ExactConversion.

Variables prec emax : Z.

Hypothesis prec_pos : 1 <= prec.
Hypothesis emax_large : prec < emax.




End ExactConversion.


(** Above [2^24] a count is rounded: 16785409 occurrences are handed
    back as 16785408. *)
Lemma float32_rounds_large_counts :
  Float32.to_Z (Float32.of_Z 16785409) = Some 16785408.
Proof. vm_compute. reflexivity. Qed.





(** *** Division by one *)

Lemma divide_by_one (x : Z) :
  np.is_uint8 x -> np.divide_sample (Float64.of_Z 1) x = x.
Proof.
  intros Hx.
  assert (Hall : forallb (fun n => np.divide_sample (Float64.of_Z 1) (Z.of_nat n)
                                   =? Z.of_nat n) (seq 0 256) = true)
    by (vm_compute; reflexivity).
  rewrite forallb_forall in Hall.
  specialize (Hall (Z.to_nat x)).
  unfold np.is_uint8 in Hx.
  rewrite Z2Nat.id in Hall by lia.
  apply Z.eqb_eq, Hall, in_seq. lia.
Qed.

(** X11. Dividing by 1.0 changes no sample: for an 8-bit image the
    processed buffer after the division is the original buffer. *)
Theorem division_by_one_is_identity (self : App) (a : ndarray) :
  original_image self = Some a ->
  np.all_uint8 a ->
  division_var self = Numeral (Float64.of_Z 1) ->
  reports_error (apply_division self) = false /\
  state_of (apply_division self) = with_processed (Some a) self.
Proof.
  intros Ho Hu Hd.
  assert (Er : division_in_range (Float64.of_Z 1) = true)
    by (vm_compute; reflexivity).
  assert (Ea : np.map_samples (np.divide_sample (Float64.of_Z 1)) a = a).
  { apply map_samples_id_on. revert Hu. apply Forall_impl. exact divide_by_one. }
  split.
  - unfold_method. repeat (cbn; rewrite ?Ho, ?Hd, ?Er). reflexivity.
  - unfold with_processed. unfold_method.
    repeat (cbn; rewrite ?Ho, ?Hd, ?Er, ?Ea). reflexivity.
Qed.

Lemma division_by_one_is_identity_witness :
  let self := state_of (set_division_var (Numeral (Float64.of_Z 1))
                                         one_pixel_session) in
  reports_error (apply_division self) = false /\
  state_of (apply_division self)
  = with_processed (Some (Color [[(30, 20, 10)]])) self.
Proof.
  apply (division_by_one_is_identity
           (state_of (set_division_var (Numeral (Float64.of_Z 1))
                                       one_pixel_session))
           (Color [[(30, 20, 10)]])).
  - reflexivity.
  - repeat constructor; unfold np.is_uint8; lia.
  - reflexivity.
Defined.

(** *** The two erosions compared *)

Lemma fold_min_le_start (l : list Z) (s : Z) : fold_left Z.min l s <= s.
Proof.
  revert s. induction l as [| v l IH]; intros s; simpl; [lia |].
  specialize (IH (Z.min s v)). lia.
Qed.

Lemma fold_min_le_elem (l : list Z) (s v : Z) :
  In v l -> fold_left Z.min l s <= v.
Proof.
  revert s. induction l as [| u l IH]; intros s Hin; simpl; [contradiction |].
  destruct Hin as [-> | Hin].
  - pose proof (fold_min_le_start l (Z.min s v)). lia.
  - apply IH. exact Hin.
Qed.

Lemma fold_min_glb (l : list Z) (s c : Z) :
  c <= s -> Forall (fun v => c <= v) l -> c <= fold_left Z.min l s.
Proof.
  intros Hs Hl. revert s Hs. induction Hl as [| v l Hv _ IH]; intros s Hs; simpl.
  - exact Hs.
  - apply IH. lia.
Qed.

(** A larger mask erodes more. *)
Lemma erode_sample_incl (plane : list (list Z)) (small large : list (Z * Z))
      (y x : Z) :
  incl small large ->
  cv2.erode_sample plane large y x <= cv2.erode_sample plane small y x.
Proof.
  intros Hincl. unfold cv2.erode_sample at 2. apply fold_min_glb.
  - apply fold_min_le_start.
  - rewrite Forall_map. apply Forall_forall. intros [dy dx] Hin.
    apply fold_min_le_elem.
    apply in_map_iff. exists (dy, dx). split; [reflexivity | apply Hincl, Hin].
Qed.

(** A mask that holds its own centre never raises a sample. *)
Lemma erode_sample_le_centre (plane : list (list Z)) (offsets : list (Z * Z))
      (row : list Z) (y x v : Z) :
  In (0, 0) offsets ->
  0 <= y -> 0 <= x ->
  nth_error plane (Z.to_nat y) = Some row ->
  nth_error row (Z.to_nat x) = Some v ->
  cv2.erode_sample plane offsets y x <= v.
Proof.
  intros Hc Hy Hx Hrow Hv. unfold cv2.erode_sample. apply fold_min_le_elem.
  apply in_map_iff. exists (0, 0). split; [| exact Hc].
  rewrite !Z.add_0_r. apply (at_or_inside 255 plane row y x v); assumption.
Qed.

Lemma enumerate_from_Forall2 {A B : Type} (R : B -> A -> Prop)
      (f : Z * A -> B) (l : list A) (s : nat) :
  (forall i x, In (i, x) (combine (map Z.of_nat (seq s (length l))) l) ->
               R (f (i, x)) x) ->
  Forall2 R (map f (combine (map Z.of_nat (seq s (length l))) l)) l.
Proof.
  revert s. induction l as [| a l IH]; intros s H; simpl.
  - constructor.
  - constructor.
    + apply H. left. reflexivity.
    + apply IH. intros i x Hin. apply H. right. exact Hin.
Qed.

(** A map over [enumerate l] is related to [l] element by element. *)
Lemma enumerate_Forall2 {A B : Type} (R : B -> A -> Prop)
      (f : Z * A -> B) (l : list A) :
  (forall i x, In (i, x) (cv2.enumerate l) -> R (f (i, x)) x) ->
  Forall2 R (map f (cv2.enumerate l)) l.
Proof. apply enumerate_from_Forall2. Qed.

Lemma Forall2_map_same {A B C : Type} (R : B -> C -> Prop)
      (f : A -> B) (g : A -> C) (l : list A) :
  (forall x, In x l -> R (f x) (g x)) -> Forall2 R (map f l) (map g l).
Proof.
  induction l as [| a l IH]; intros H; simpl; constructor.
  - apply H. left. reflexivity.
  - apply IH. intros x Hin. apply H. right. exact Hin.
Qed.

(** The eroded plane has the shape of the plane, and each of its
    samples is related to the sample it replaces. *)
Lemma erode_plane_pointwise (R : Z -> Z -> Prop) (offsets : list (Z * Z))
      (plane : list (list Z)) :
  (forall y x row v,
      0 <= y -> 0 <= x ->
      nth_error plane (Z.to_nat y) = Some row ->
      nth_error row (Z.to_nat x) = Some v ->
      R (cv2.erode_sample plane offsets y x) v) ->
  Forall2 (Forall2 R) (cv2.erode_plane offsets plane) plane.
Proof.
  intros H. unfold cv2.erode_plane.
  apply (enumerate_Forall2 (Forall2 R)). intros y row Hy.
  destruct (enumerate_In _ plane y row Hy) as [Hy0 Hrow].
  apply (enumerate_Forall2 R). intros x v Hx.
  destruct (enumerate_In _ row x v Hx) as [Hx0 Hv].
  apply (H y x row v); assumption.
Qed.

Lemma erode_plane_incl (small large : list (Z * Z)) (plane : list (list Z)) :
  incl small large ->
  nowhere_above (cv2.erode_plane large plane) (cv2.erode_plane small plane).
Proof.
  intros Hincl. unfold nowhere_above, cv2.erode_plane.
  apply Forall2_map_same. intros [y row] _.
  apply Forall2_map_same. intros [x v] _.
  apply erode_sample_incl. exact Hincl.
Qed.

Lemma cross_in_square :
  incl (cv2.kernel_offsets (cv2.getStructuringElement cv2.MORPH_CROSS (5, 5)))
       (cv2.kernel_offsets (cv2.getStructuringElement cv2.MORPH_RECT (5, 5))).
Proof.
  rewrite cross_offsets, square_offsets. intros p Hin. simpl in Hin. simpl.
  repeat (destruct Hin as [<- | Hin]; [tauto |]). contradiction.
Qed.

Lemma cross_mask_has_centre :
  In (0, 0) (cv2.kernel_offsets (cv2.getStructuringElement cv2.MORPH_CROSS (5, 5))).
Proof. rewrite cross_offsets. simpl. tauto. Qed.

Lemma erosion_square_Color (self : App) (rows : list (list pixel)) :
  original_image self = Some (Color rows) ->
  processed_image (state_of (erosion_square self))
  = Some (Gray (cv2.erode_plane
                  (cv2.kernel_offsets (cv2.getStructuringElement cv2.MORPH_RECT (5, 5)))
                  (binarized rows))).
Proof.
  intros H. rewrite <- erode_Gray_once, <- threshold_gray_binarized.
  unfold_method. repeat (cbn; rewrite ?H). reflexivity.
Qed.

Lemma erosion_cross_Color (self : App) (rows : list (list pixel)) :
  original_image self = Some (Color rows) ->
  processed_image (state_of (erosion_cross self))
  = Some (Gray (cv2.erode_plane
                  (cv2.kernel_offsets (cv2.getStructuringElement cv2.MORPH_CROSS (5, 5)))
                  (binarized rows))).
Proof.
  intros H. rewrite <- erode_Gray_once, <- threshold_gray_binarized.
  unfold_method. repeat (cbn; rewrite ?H). reflexivity.
Qed.

(** X12. Both erosions only take foreground away, and the cross takes
    away no more than the square: the result of the square erosion is
    nowhere above that of the cross erosion, which is nowhere above the
    thresholded image; all three have the same shape, and the cross
    erosion too leaves only 0 and 255. *)
Theorem erosions_are_ordered (self : App) (rows : list (list pixel)) :
  original_image self = Some (Color rows) ->
  exists square cross,
    processed_image (state_of (erosion_square self)) = Some (Gray square) /\
    processed_image (state_of (erosion_cross self)) = Some (Gray cross) /\
    nowhere_above square cross /\
    nowhere_above cross (binarized rows) /\
    Forall (Forall is_binary) cross.
Proof.
  intros Ho. do 2 eexists.
  split; [apply (erosion_square_Color self rows Ho) |].
  split; [apply (erosion_cross_Color self rows Ho) |].
  split; [| split].
  - apply erode_plane_incl. exact cross_in_square.
  - apply erode_plane_pointwise. intros y x row v Hy Hx Hrow Hv.
    apply (erode_sample_le_centre _ _ row); try assumption.
    exact cross_mask_has_centre.
  - apply erode_plane_binary. apply binarized_binary.
Qed.

Lemma erosions_are_ordered_witness :
  exists square cross,
    processed_image (state_of (erosion_square one_pixel_session))
    = Some (Gray square) /\
    processed_image (state_of (erosion_cross one_pixel_session))
    = Some (Gray cross) /\
    nowhere_above square cross /\
    nowhere_above cross (binarized [[(30, 20, 10)]]) /\
    Forall (Forall is_binary) cross.
Proof.
  apply (erosions_are_ordered one_pixel_session [[(30, 20, 10)]]).
  reflexivity.
Defined.

Lemma Forall2_map_right {A B C : Type} (R : A -> C -> Prop) (f : B -> C)
      (l : list A) (m : list B) :
  Forall2 R l (map f m) -> Forall2 (fun a b => R a (f b)) l m.
Proof.
  revert l. induction m as [| b m IH]; intros l H; simpl in H;
    inversion H; subst; constructor; auto.
Qed.

(** X13. An image that is white everywhere stays white everywhere
    under both erosions, and one that is black everywhere stays black:
    the result has the shape of the image and the one value in every
    sample. *)
Theorem erosion_fixed_points (self : App) (rows : list (list pixel)) (v : Z) :
  original_image self = Some (Color rows) ->
  v = 0 \/ v = 255 ->
  Forall (Forall (fun p => p = (v, v, v))) rows ->
  exists square cross,
    processed_image (state_of (erosion_square self)) = Some (Gray square) /\
    processed_image (state_of (erosion_cross self)) = Some (Gray cross) /\
    Forall2 (Forall2 (fun out (_ : pixel) => out = v)) square rows /\
    Forall2 (Forall2 (fun out (_ : pixel) => out = v)) cross rows.
Proof.
  intros Ho Hv Hall. do 2 eexists.
  split; [apply (erosion_square_Color self rows Ho) |].
  split; [apply (erosion_cross_Color self rows Ho) |].
  assert (Hb : Forall (Forall (fun s => s = v)) (binarized rows)).
  { unfold binarized. rewrite Forall_map. revert Hall. apply Forall_impl.
    intros row Hrow. rewrite Forall_map. revert Hrow. apply Forall_impl.
    intros p ->. rewrite rgb2gray_gray. destruct Hv as [-> | ->]; reflexivity. }
  assert (Hfix : forall offsets,
             In (0, 0) offsets ->
             Forall2 (Forall2 (fun out (_ : pixel) => out = v))
                     (cv2.erode_plane offsets (binarized rows)) rows).
  { intros offsets Hc.
    assert (H : Forall2 (Forall2 (fun out (_ : Z) => out = v))
                        (cv2.erode_plane offsets (binarized rows))
                        (binarized rows)).
    { apply erode_plane_pointwise.
      intros y x row s Hy Hx Hrow Hs.
      assert (Hsv : s = v).
      { pose proof (nth_error_In _ _ Hrow) as Hin1.
        pose proof (nth_error_In _ _ Hs) as Hin2.
        rewrite Forall_forall in Hb. specialize (Hb row Hin1).
        rewrite Forall_forall in Hb. exact (Hb s Hin2). }
      subst s. destruct Hv as [-> | ->].
      - apply Z.le_antisymm.
        + apply (erode_sample_le_centre _ _ row); assumption.
        + destruct (erode_sample_binary (binarized rows) offsets y x
                                        (binarized_binary rows)) as [E | E];
            rewrite E; lia.
      - apply (erode_sample_foreground _ _ _ _ (binarized_binary rows)).
        intros dy dx _. unfold cv2.at_or.
        destruct ((y + dy <? 0) || (x + dx <? 0)); [reflexivity |].
        destruct (nth_error (binarized rows) (Z.to_nat (y + dy))) as [r |] eqn:Hr;
          [| reflexivity].
        destruct (nth_error r (Z.to_nat (x + dx))) as [u |] eqn:Hu; [| reflexivity].
        apply nth_error_In in Hr, Hu.
        rewrite Forall_forall in Hb. specialize (Hb r Hr).
        rewrite Forall_forall in Hb. exact (Hb u Hu). }
    unfold binarized in H at 2.
    apply (Forall2_map_right (Forall2 (fun out (_ : Z) => out = v))) in H.
    revert H. apply Forall2_impl. intros out row H.
    exact (Forall2_map_right (fun o (_ : Z) => o = v) _ out row H). }
  split; apply Hfix.
  - exact square_mask_has_centre.
  - exact cross_mask_has_centre.
Qed.

Lemma erosion_fixed_points_witness :
  let rows := [[(255, 255, 255); (255, 255, 255)]] in
  let self := state_of (load_image "w.png" (Some (cv2.StoredColor rows))
                                   setup_variables) in
  exists square cross,
    processed_image (state_of (erosion_square self)) = Some (Gray square) /\
    processed_image (state_of (erosion_cross self)) = Some (Gray cross) /\
    Forall2 (Forall2 (fun out (_ : pixel) => out = 255)) square rows /\
    Forall2 (Forall2 (fun out (_ : pixel) => out = 255)) cross rows.
Proof.
  apply (erosion_fixed_points
           (state_of (load_image "w.png"
                        (Some (cv2.StoredColor [[(255, 255, 255); (255, 255, 255)]]))
                        setup_variables))
           [[(255, 255, 255); (255, 255, 255)]] 255).
  - reflexivity.
  - right. reflexivity.
  - repeat constructor.
Defined.

(** *** Images that need no scaling *)

(** X14. An image that fits the canvas, the margin of twenty pixels
    left out, is drawn at exactly its own size: the scale is one and
    the products lose nothing. *)
Theorem display_size_unscaled (winfo_width winfo_height h w : Z) :
  winfo_width < 2 ^ 53 -> winfo_height < 2 ^ 53 ->
  1 <= w <= Z.max winfo_width 300 - 20 ->
  1 <= h <= Z.max winfo_height 200 - 20 ->
  display_size winfo_width winfo_height h w = Some (w, h).
Proof.
  intros Hcw Hch Hw Hh. unfold display_size.
  pose proof (display_scale_one winfo_width winfo_height h w Hcw Hch Hw Hh) as Hs.
  rewrite (mul_one_exact w _ ltac:(lia) Hs), (mul_one_exact h _ ltac:(lia) Hs).
  f_equal. f_equal; lia.
Qed.

Lemma display_size_unscaled_witness :
  display_size 800 600 100 200 = Some (200, 100).
Proof.
  apply (display_size_unscaled 800 600 100 200).
  - reflexivity.
  - reflexivity.
  - vm_compute. split; discriminate.
  - vm_compute. split; discriminate.
Defined.

(** *** What the transforms do to the samples *)

Lemma samples_map_samples (f : Z -> Z) (a : ndarray) :
  np.samples (np.map_samples f a) = map f (np.samples a).
Proof.
  destruct a as [rows | rows]; unfold np.map_samples, np.samples.
  - rewrite concat_map. reflexivity.
  - rewrite concat_map, !map_map. f_equal. apply map_ext. intros row.
    rewrite concat_map, !map_map. f_equal. apply map_ext.
    intros [[c0 c1] c2]. reflexivity.
Qed.

Lemma Forall2_map_left_same {A : Type} (R : A -> A -> Prop) (f : A -> A)
      (l : list A) :
  Forall (fun x => R (f x) x) l -> Forall2 R (map f l) l.
Proof. induction 1; simpl; constructor; assumption. Qed.

Lemma map_samples_ext_on (f g : Z -> Z) (a : ndarray) :
  Forall (fun x => f x = g x) (np.samples a) ->
  np.map_samples f a = np.map_samples g a.
Proof.
  destruct a as [rows | rows]; intros H; unfold np.map_samples; f_equal.
  - apply Forall_samples_Gray in H.
    apply map_ext_Forall. revert H. apply Forall_impl. intros row.
    apply map_ext_Forall.
  - apply Forall_samples_Color in H.
    apply map_ext_Forall. revert H. apply Forall_impl. intros row Hrow.
    apply map_ext_Forall. revert Hrow. apply Forall_impl.
    intros [[c0 c1] c2] (H0 & H1 & H2). simpl. rewrite H0, H1, H2. reflexivity.
Qed.

(** The weights of the grey value add up to one: it lies between the
    channels. *)
Lemma rgb2gray_between (p : pixel) : between_channels (cv2.rgb2gray p) p.
Proof.
  destruct p as [[r g] b]. unfold between_channels, cv2.rgb2gray.
  rewrite Z.shiftr_div_pow2 by lia. change (2 ^ 15) with 32768.
  split.
  - apply Z.div_le_lower_bound; lia.
  - assert (H : (r * 9798 + g * 19235 + b * 3735 + 16384) / 32768
                < Z.max r (Z.max g b) + 1)
      by (apply Z.div_lt_upper_bound; lia).
    lia.
Qed.

Lemma binary_uint8 (x : Z) : is_binary x -> np.is_uint8 x.
Proof. unfold is_binary, np.is_uint8. lia. Qed.

Lemma rgb2gray_uint8 (rows : list (list pixel)) :
  np.all_uint8 (Color rows) ->
  np.all_uint8 (Gray (map (map cv2.rgb2gray) rows)).
Proof.
  intros H. apply Forall_samples_Color in H. apply Forall_samples_Gray.
  rewrite Forall_map. revert H. apply Forall_impl. intros row Hrow.
  rewrite Forall_map. revert Hrow. apply Forall_impl.
  intros [[r g] b] (Hr & Hg & Hb).
  pose proof (rgb2gray_between (r, g, b)) as H.
  unfold between_channels in H. unfold np.is_uint8 in *. lia.
Qed.

Lemma lnot_mod_uint8 (x : Z) : np.is_uint8 (Z.lnot x mod 256).
Proof.
  unfold np.is_uint8. pose proof (Z.mod_pos_bound (Z.lnot x) 256 eq_refl). lia.
Qed.

(** X15. Grayscale conversion: every grey value lies between the
    channels of its pixel, and the result has the shape of the
    original. *)
Theorem grayscale_between_channels (self : App) (rows : list (list pixel)) :
  original_image self = Some (Color rows) ->
  exists gray,
    processed_image (state_of (convert_grayscale self)) = Some (Gray gray) /\
    Forall2 (Forall2 between_channels) gray rows.
Proof.
  intros H. exists (map (map cv2.rgb2gray) rows).
  split; [apply convert_grayscale_Color; exact H |].
  rewrite <- (map_id rows) at 2.
  apply Forall2_map_same. intros row _.
  rewrite <- (map_id row) at 2.
  apply Forall2_map_same. intros p _. apply rgb2gray_between.
Qed.

(** X16. Logical NOT turns every sample [x] of an 8-bit original
    into [255 - x]. *)
Theorem logical_not_complement (self : App) (a : ndarray) :
  original_image self = Some a -> np.all_uint8 a ->
  processed_image (state_of (logical_not self))
  = Some (np.map_samples (fun x => 255 - x) a).
Proof.
  intros Ho Ha.
  rewrite <- (map_samples_ext_on (fun s => Z.lnot s mod 256) _ a).
  - unfold_method. repeat (cbn; rewrite ?Ho). reflexivity.
  - revert Ha. apply Forall_impl. intros x. apply lnot_uint8.
Qed.

(** X17. Division by a number between 1.0 and 10.0 never brightens:
    every sample of the result is at most the sample it comes from. *)
Theorem division_never_brightens (self : App) (a : ndarray) (v : float) :
  original_image self = Some a -> np.all_uint8 a ->
  division_var self = Numeral v ->
  valid_binary Float64.prec Float64.emax v = true ->
  division_in_range v = true ->
  exists d,
    processed_image (state_of (apply_division self)) = Some d /\
    Forall2 Z.le (np.samples d) (np.samples a).
Proof.
  intros Ho Ha Hd Hv Hr.
  exists (np.map_samples (np.divide_sample v) a). split.
  - unfold_method. repeat (cbn; rewrite ?Ho, ?Hd, ?Hr). reflexivity.
  - rewrite samples_map_samples. apply Forall2_map_left_same.
    revert Ha. apply Forall_impl. intros x Hx.
    apply (divide_sample_not_above v x Hv Hr Hx).
Qed.

Section Samples.

Context {conv : Convolutions}.

Lemma apply_keeps_uint8 (t : transform) (self : App)
      (rows : list (list pixel)) :
  original_image self = Some (Color rows) ->
  np.all_uint8 (Color rows) ->
  (forall p, processed_image self = Some p -> np.all_uint8 p) ->
  t <> Blur -> t <> Sharpen ->
  forall p, processed_image (state_of (apply t self)) = Some p -> np.all_uint8 p.
Proof.
  intros Ho Ha Hp Hb Hs p.
  destruct t; try congruence; simpl apply.
  - rewrite (convert_grayscale_Color self rows Ho). intros [= <-].
    apply rgb2gray_uint8. exact Ha.
  - assert (E : processed_image (state_of (convert_binary self))
                = Some (cv2.threshold_binary (Gray (map (map cv2.rgb2gray) rows))
                                             (threshold_var self) 255)).
    { unfold_method. repeat (cbn; rewrite ?Ho). reflexivity. }
    rewrite E. intros [= <-].
    generalize (threshold_binary_is_binary (Gray (map (map cv2.rgb2gray) rows))
                                           (threshold_var self)).
    apply Forall_impl. exact binary_uint8.
  - assert (E : processed_image (state_of (logical_not self))
                = Some (cv2.bitwise_not (Color rows))).
    { unfold_method. repeat (cbn; rewrite ?Ho). reflexivity. }
    rewrite E. intros [= <-].
    apply Forall_map_samples. exact lnot_mod_uint8.
  - destruct (division_var self) as [text | v] eqn:Ed;
      [| destruct (division_in_range v) eqn:Er].
    + assert (E : state_of (apply_division self) = self).
      { unfold_method. repeat (cbn; rewrite ?Ho, ?Ed). reflexivity. }
      rewrite E. apply Hp.
    + assert (E : processed_image (state_of (apply_division self))
                  = Some (np.map_samples (np.divide_sample v) (Color rows))).
      { unfold_method. repeat (cbn; rewrite ?Ho, ?Ed, ?Er). reflexivity. }
      rewrite E. intros [= <-].
      apply Forall_map_samples. intros x. apply divide_sample_uint8.
    + assert (E : state_of (apply_division self) = self).
      { unfold_method. repeat (cbn; rewrite ?Ho, ?Ed, ?Er). reflexivity. }
      rewrite E. apply Hp.
  - assert (E : state_of (show_histogram self) = self).
    { unfold_method. destruct (processed_image self) eqn:Ep;
        repeat (cbn; rewrite ?Ho, ?Ep); reflexivity. }
    rewrite E. apply Hp.
  - rewrite (erosion_square_Color self rows Ho). intros [= <-].
    apply Forall_samples_Gray.
    generalize (erode_plane_binary
                  (cv2.kernel_offsets (cv2.getStructuringElement cv2.MORPH_RECT (5, 5)))
                  (binarized rows) (binarized_binary rows)).
    apply Forall_impl. intros row. apply Forall_impl. exact binary_uint8.
  - rewrite (erosion_cross_Color self rows Ho). intros [= <-].
    apply Forall_samples_Gray.
    generalize (erode_plane_binary
                  (cv2.kernel_offsets (cv2.getStructuringElement cv2.MORPH_CROSS (5, 5)))
                  (binarized rows) (binarized_binary rows)).
    apply Forall_impl. intros row. apply Forall_impl. exact binary_uint8.
Qed.

(** X18. Every transform whose library call is modelled keeps the
    processed buffer an 8-bit array. *)
Theorem transforms_keep_uint8 (t : transform) (self : App)
        (rows : list (list pixel)) (p0 : ndarray) :
  original_image self = Some (Color rows) ->
  np.all_uint8 (Color rows) ->
  processed_image self = Some p0 ->
  np.all_uint8 p0 ->
  t <> Blur -> t <> Sharpen ->
  exists p, processed_image (after (Apply t) self) = Some p /\ np.all_uint8 p.
Proof.
  intros Ho Ha Hp Hp0 Hb Hs. unfold after; simpl run.
  destruct (processed_image (state_of (apply t self))) as [p |] eqn:E.
  - exists p. split; [reflexivity |].
    apply (apply_keeps_uint8 t self rows Ho Ha); try assumption.
    intros q Hq. rewrite Hp in Hq. injection Hq as <-. exact Hp0.
  - exfalso. apply (apply_processed_present t self); [| exact E].
    rewrite Hp. discriminate.
Qed.

End Samples.

Lemma grayscale_between_channels_witness :
  exists gray,
    processed_image (state_of (convert_grayscale one_pixel_session))
    = Some (Gray gray) /\
    Forall2 (Forall2 between_channels) gray [[(30, 20, 10)]].
Proof.
  apply (grayscale_between_channels one_pixel_session [[(30, 20, 10)]]).
  reflexivity.
Defined.

Lemma logical_not_complement_witness :
  processed_image (state_of (logical_not one_pixel_session))
  = Some (np.map_samples (fun x => 255 - x) (Color [[(30, 20, 10)]])).
Proof.
  apply (logical_not_complement one_pixel_session (Color [[(30, 20, 10)]])).
  - reflexivity.
  - repeat constructor; unfold np.is_uint8; lia.
Defined.

Lemma division_never_brightens_witness :
  exists d,
    processed_image (state_of (apply_division one_pixel_session)) = Some d /\
    Forall2 Z.le (np.samples d) (np.samples (Color [[(30, 20, 10)]])).
Proof.
  apply (division_never_brightens one_pixel_session (Color [[(30, 20, 10)]])
                                  (Float64.of_Z 2)).
  - reflexivity.
  - repeat constructor; unfold np.is_uint8; lia.
  - reflexivity.
  - vm_compute. reflexivity.
  - vm_compute. reflexivity.
Defined.

Lemma transforms_keep_uint8_witness :
  exists p,
    processed_image (after (conv := no_convolution) (Apply ErosionCross)
                           one_pixel_session) = Some p /\
    np.all_uint8 p.
Proof.
  apply (transforms_keep_uint8 (conv := no_convolution) ErosionCross
           one_pixel_session [[(30, 20, 10)]] (Color [[(30, 20, 10)]])).
  - reflexivity.
  - repeat constructor; unfold np.is_uint8; lia.
  - reflexivity.
  - repeat constructor; unfold np.is_uint8; lia.
  - discriminate.
  - discriminate.
Defined.
